(** * Metaverse networking: sequencing, snapshots, reconciliation, voice

    A shallow embedding of [godot/metaverse_networking.c] and the properties
    its specification states about it.

    Conventions of the embedding.
    - A C unsigned integer of width [w] is a [Z] kept in [0, 2^w) by an
      explicit [wrap w] after every arithmetic operation.
    - [float] values are IEEE-754 binary32 numbers ([spec_float] with
      precision 24), [double] values binary64; every operation rounds to
      nearest even, as a compiler without excess precision or contraction
      evaluates them.
    - Arrays indexed in place are lists with stdpp's lookup and insert.
    - [printf], [sendto] and the calls to the packet handlers (whose bodies
      are not part of the repository) are recorded as a list of [Effect]s.
    - The locks are not modelled: every function is run on its own.
    - A write past the end of an array is undefined: a function that can
      make one says so in its result and gives no state for that call. *)

From Stdlib Require Import ZArith List Bool Lia.
From Stdlib Require Import Strings.Byte.
From Stdlib Require Import Floats.SpecFloat.
From stdpp Require Import base list.

Local Open Scope Z_scope.

(** ** Fixed-width unsigned integers *)

Definition wrap (w : Z) (n : Z) : Z := n mod 2 ^ w.

Definition uint8 (n : Z) : Z := wrap 8 n.
Definition uint16 (n : Z) : Z := wrap 16 n.
Definition uint32 (n : Z) : Z := wrap 32 n.

(** The value a signed 16-bit integer would have for the same bit pattern. *)
Definition int16_of_uint16 (n : Z) : Z :=
  if n <? 32768 then n else n - 65536.

Definition byte_val (b : byte) : Z := Z.of_N (Byte.to_N b).

(** ** Floating point *)

Module F32.
Definition prec : Z := 24.
Definition emax : Z := 128.

Definition of_Z (n : Z) : spec_float := binary_normalize prec emax n 0 false.
Definition add : spec_float -> spec_float -> spec_float := SFadd prec emax.
Definition sub : spec_float -> spec_float -> spec_float := SFsub prec emax.
Definition mul : spec_float -> spec_float -> spec_float := SFmul prec emax.
Definition div : spec_float -> spec_float -> spec_float := SFdiv prec emax.
Definition sqrtf : spec_float -> spec_float := SFsqrt prec emax.

(** [gtb x y] is the C comparison [x > y]: false when either is a NaN. *)
Definition gtb (x y : spec_float) : bool := SFltb y x.

Definition is_nan (x : spec_float) : bool :=
  match x with S754_nan => true | _ => false end.

(** C99 [fmaxf] and [fminf]: a NaN argument is treated as missing. *)
Definition fmaxf (x y : spec_float) : spec_float :=
  if is_nan x then y else if is_nan y then x
  else if SFltb x y then y else x.
Definition fminf (x y : spec_float) : spec_float :=
  if is_nan x then y else if is_nan y then x
  else if SFltb y x then y else x.

(** Conversion of a [double] to [float]. *)
Definition of_double (x : spec_float) : spec_float :=
  match x with
  | S754_finite s m e =>
      binary_normalize prec emax (if s then Z.neg m else Z.pos m) e s
  | _ => x
  end.

Definition zero : spec_float := S754_zero false.
Definition one : spec_float := of_Z 1.
(** The literals [0.1f] and [0.01f]: the binary32 numbers nearest to 1/10
    and 1/100. *)
Definition lit_0_1 : spec_float := Eval vm_compute in div (of_Z 1) (of_Z 10).
Definition lit_0_01 : spec_float := Eval vm_compute in div (of_Z 1) (of_Z 100).
End F32.

Module F64.
Definition prec : Z := 53.
Definition emax : Z := 1024.

Definition of_Z (n : Z) : spec_float := binary_normalize prec emax n 0 false.
Definition add : spec_float -> spec_float -> spec_float := SFadd prec emax.
Definition mul : spec_float -> spec_float -> spec_float := SFmul prec emax.
Definition div : spec_float -> spec_float -> spec_float := SFdiv prec emax.

(** Promotion of a [float] to [double] (exact). *)
Definition of_float (x : spec_float) : spec_float :=
  match x with
  | S754_finite s m e =>
      binary_normalize prec emax (if s then Z.neg m else Z.pos m) e s
  | _ => x
  end.

(** The literals [0.9] and [0.1]. *)
Definition lit_0_9 : spec_float := Eval vm_compute in div (of_Z 9) (of_Z 10).
Definition lit_0_1 : spec_float := Eval vm_compute in div (of_Z 1) (of_Z 10).
End F64.

(** ** Protocol constants *)

Definition METAVERSE_PROTOCOL_VERSION : Z := 1.
Definition MAX_PACKET_SIZE : Z := 1400.
Definition MAX_PLAYERS : Z := 1024.
Definition MAX_ENTITIES_PER_PACKET : Z := 64.
Definition NETWORK_TICK_RATE : Z := 60.
Definition SNAPSHOT_INTERVAL : Z := 2.

Inductive PacketType : Set :=
| PACKET_CONNECT
| PACKET_DISCONNECT
| PACKET_ENTITY_UPDATE
| PACKET_ENTITY_CREATE
| PACKET_ENTITY_DESTROY
| PACKET_CHAT_MESSAGE
| PACKET_VOICE_DATA
| PACKET_SNAPSHOT
| PACKET_INPUT
| PACKET_RPC
| PACKET_PING
| PACKET_PONG.

(** The enumerators count up from 0. *)
Definition packet_type_code (t : PacketType) : Z :=
  match t with
  | PACKET_CONNECT => 0
  | PACKET_DISCONNECT => 1
  | PACKET_ENTITY_UPDATE => 2
  | PACKET_ENTITY_CREATE => 3
  | PACKET_ENTITY_DESTROY => 4
  | PACKET_CHAT_MESSAGE => 5
  | PACKET_VOICE_DATA => 6
  | PACKET_SNAPSHOT => 7
  | PACKET_INPUT => 8
  | PACKET_RPC => 9
  | PACKET_PING => 10
  | PACKET_PONG => 11
  end.

Definition all_packet_types : list PacketType :=
  [PACKET_CONNECT; PACKET_DISCONNECT; PACKET_ENTITY_UPDATE;
   PACKET_ENTITY_CREATE; PACKET_ENTITY_DESTROY; PACKET_CHAT_MESSAGE;
   PACKET_VOICE_DATA; PACKET_SNAPSHOT; PACKET_INPUT; PACKET_RPC;
   PACKET_PING; PACKET_PONG].

Definition packet_type_of_code (c : Z) : option PacketType :=
  List.find (fun t => packet_type_code t =? c) all_packet_types.

(** ** Data model *)

(** [Vector4] of [godot_metaverse_core.c]: three coordinates and [w]. *)
Record Vector4 : Set := mkVector4 {
  vx : spec_float;
  vy : spec_float;
  vz : spec_float;
  vw : spec_float
}.

Record NetworkEntity : Set := mkNetworkEntity {
  entity_id : Z;            (* uint64_t *)
  owner_id : Z;             (* uint32_t *)
  entity_type : Z;          (* uint8_t *)
  flags : Z;                (* uint32_t *)
  position : Vector4;
  rotation : Vector4;
  velocity : Vector4;
  last_update : Z;          (* uint32_t *)
  interpolation_time : Z    (* uint32_t *)
}.

(** A socket address, kept abstract as a number. *)
Definition sockaddr : Set := Z.

Record NetworkPlayer : Set := mkNetworkPlayer {
  player_id : Z;            (* uint32_t *)
  username : list byte;     (* char[32] *)
  address : sockaddr;
  connect_time : Z;
  last_packet_time : Z;
  ping : Z;                 (* uint32_t *)
  sequence_number : Z;      (* uint8_t *)
  authenticated : bool;
  connected : bool;
  input_sequence : Z;       (* uint32_t *)
  input_state : list byte;  (* uint8_t[32] *)
  owned_entities : list Z;  (* uint64_t[64] *)
  owned_entity_count : Z    (* uint32_t *)
}.

Record NetworkSnapshot : Set := mkNetworkSnapshot {
  snapshot_id : Z;          (* uint32_t *)
  timestamp : Z;            (* uint32_t *)
  snap_entity_count : Z;    (* uint32_t entity_count *)
  snap_entities : list NetworkEntity;
      (* the first entity_count slots of entities[MAX_ENTITIES_PER_PACKET] *)
  snap_player_count : Z;    (* uint32_t player_count *)
  player_ids : list Z       (* uint32_t[MAX_PLAYERS / 32], a bitmask *)
}.

Record ReliablePacket : Set := mkReliablePacket {
  rp_sequence : Z;          (* uint16_t sequence *)
  rp_ack : Z;               (* uint16_t *)
  rp_ack_bitfield : Z;      (* uint32_t *)
  rp_packet_type : Z;       (* uint8_t *)
  rp_data : list byte;      (* data[0 .. data_length) *)
  rp_send_time : Z;         (* time_t *)
  rp_acked : bool;
  rp_retry_count : Z        (* uint8_t *)
}.

(** The manager, without the socket, the thread handles and the locks.
    [entities] holds the [entity_count] live slots of the heap array. *)
Record NetworkManager : Set := mkNetworkManager {
  is_server : bool;
  is_connected : bool;
  server_address : sockaddr;
  players : list NetworkPlayer;   (* players[0 .. player_count) *)
  local_player_id : Z;            (* uint32_t *)
  entities : list NetworkEntity;  (* entities[0 .. entity_count) *)
  snapshots : list NetworkSnapshot; (* ring of 64 *)
  snapshot_head : Z;
  snapshot_tail : Z;
  sent_packets : list ReliablePacket;
  next_send_sequence : Z;         (* uint16_t *)
  last_received_sequence : Z;     (* uint16_t *)
  network_active : bool;
  packets_sent : Z;               (* uint32_t *)
  packets_received : Z;           (* uint32_t *)
  packets_lost : Z;               (* uint32_t *)
  bytes_sent : Z;                 (* uint32_t *)
  bytes_received : Z;             (* uint32_t *)
  average_ping : spec_float;
  packet_loss_rate : spec_float
}.

Definition entity_count (m : NetworkManager) : nat := length (entities m).
Definition player_count (m : NetworkManager) : nat := length (players m).

(** ** Observable effects *)

(** The packet handlers [network_process_packet] calls.  Their bodies are
    not part of the repository: a call is recorded, not executed. *)
Inductive Handler : Set :=
| network_handle_connect
| network_handle_disconnect
| network_handle_entity_update
| network_handle_snapshot
| network_handle_input
| network_handle_chat
| network_handle_voice
| network_handle_rpc
| network_handle_ping
| network_handle_pong.

Inductive Effect : Set :=
| PrintVersionMismatch
    (* printf("Protocol version mismatch\n") *)
| PrintStateMismatch (id : Z)
    (* printf("State mismatch for entity %lu\n", id) *)
| PerrorReceive
    (* perror("Receive error") *)
| CallHandler (h : Handler) (payload : list byte) (from_addr : sockaddr)
    (* h(manager, data + 4, length - 4, from_addr) *)
| Sendto (to_addr : sockaddr) (packet_size : Z).
    (* sendto(udp_socket, packet, packet_size, 0, to_addr, ...) *)

(** ** Field updates of the manager *)

Definition set_sequence_stats (m : NetworkManager)
    (lost : Z) (rate : spec_float) : NetworkManager :=
  mkNetworkManager (is_server m) (is_connected m) (server_address m)
    (players m) (local_player_id m) (entities m) (snapshots m)
    (snapshot_head m) (snapshot_tail m) (sent_packets m)
    (next_send_sequence m) (last_received_sequence m) (network_active m)
    (packets_sent m) (packets_received m) lost
    (bytes_sent m) (bytes_received m) (average_ping m) rate.

Definition set_last_received_sequence (m : NetworkManager)
    (s : Z) : NetworkManager :=
  mkNetworkManager (is_server m) (is_connected m) (server_address m)
    (players m) (local_player_id m) (entities m) (snapshots m)
    (snapshot_head m) (snapshot_tail m) (sent_packets m)
    (next_send_sequence m) s (network_active m)
    (packets_sent m) (packets_received m) (packets_lost m)
    (bytes_sent m) (bytes_received m) (average_ping m) (packet_loss_rate m).

Definition set_received_stats (m : NetworkManager)
    (pkts bytes : Z) : NetworkManager :=
  mkNetworkManager (is_server m) (is_connected m) (server_address m)
    (players m) (local_player_id m) (entities m) (snapshots m)
    (snapshot_head m) (snapshot_tail m) (sent_packets m)
    (next_send_sequence m) (last_received_sequence m) (network_active m)
    (packets_sent m) pkts (packets_lost m)
    (bytes_sent m) bytes (average_ping m) (packet_loss_rate m).

Definition set_entities (m : NetworkManager)
    (es : list NetworkEntity) : NetworkManager :=
  mkNetworkManager (is_server m) (is_connected m) (server_address m)
    (players m) (local_player_id m) es (snapshots m)
    (snapshot_head m) (snapshot_tail m) (sent_packets m)
    (next_send_sequence m) (last_received_sequence m) (network_active m)
    (packets_sent m) (packets_received m) (packets_lost m)
    (bytes_sent m) (bytes_received m) (average_ping m) (packet_loss_rate m).

(** ** Receiving: [network_process_packet] and the receive loop *)

(** [*(uint16_t* )(data + off)] on a little-endian host. *)
Definition read_u16 (data : list byte) (off : nat) : option Z :=
  lo ← data !! off;
  hi ← data !! S off;
  Some (byte_val lo + 256 * byte_val hi).

(** The [switch (packet_type)]: it has no [default], and no case for
    [PACKET_ENTITY_CREATE] and [PACKET_ENTITY_DESTROY]. *)
Definition handler_of_packet_type (packet_type : Z) : option Handler :=
  match packet_type_of_code packet_type with
  | Some PACKET_CONNECT => Some network_handle_connect
  | Some PACKET_DISCONNECT => Some network_handle_disconnect
  | Some PACKET_ENTITY_UPDATE => Some network_handle_entity_update
  | Some PACKET_SNAPSHOT => Some network_handle_snapshot
  | Some PACKET_INPUT => Some network_handle_input
  | Some PACKET_CHAT_MESSAGE => Some network_handle_chat
  | Some PACKET_VOICE_DATA => Some network_handle_voice
  | Some PACKET_RPC => Some network_handle_rpc
  | Some PACKET_PING => Some network_handle_ping
  | Some PACKET_PONG => Some network_handle_pong
  | Some PACKET_ENTITY_CREATE | Some PACKET_ENTITY_DESTROY | None => None
  end.

Definition dispatch (packet_type : Z) (payload : list byte)
    (from_addr : sockaddr) : list Effect :=
  match handler_of_packet_type packet_type with
  | Some h => [CallHandler h payload from_addr]
  | None => []
  end.

(** [uint16_t lost_packets = sequence - expected_sequence]. *)
Definition lost_packets (expected_sequence sequence : Z) : Z :=
  uint16 (sequence - expected_sequence).

(** [0.9 * rate + 0.1 * (lost_packets / (float)sequence)], computed in
    [double] and stored in a [float]. *)
Definition loss_rate_update (rate : spec_float) (lost sequence : Z)
    : spec_float :=
  F32.of_double
    (F64.add (F64.mul F64.lit_0_9 (F64.of_float rate))
       (F64.mul F64.lit_0_1
          (F64.of_float (F32.div (F32.of_Z lost) (F32.of_Z sequence))))).

(** The distance the specification describes, to compare with
    [lost_packets]: [sequence - expected] in signed 16-bit arithmetic, below
    zero for an old packet. *)
Definition spec_sequence_delta (expected_sequence sequence : Z) : Z :=
  int16_of_uint16 (uint16 (sequence - expected_sequence)).

(** The block between [pthread_mutex_lock] and [pthread_mutex_unlock]. *)
Definition update_sequence_tracking (m : NetworkManager)
    (sequence : Z) : NetworkManager :=
  let expected_sequence := uint16 (last_received_sequence m + 1) in
  let m1 :=
    if negb (sequence =? expected_sequence) then
      let lost := lost_packets expected_sequence sequence in
      set_sequence_stats m (uint32 (packets_lost m + lost))
        (loss_rate_update (packet_loss_rate m) lost sequence)
    else m in
  set_last_received_sequence m1 sequence.

(** The header: [protocol_version], [packet_type] and [sequence]. *)
Definition parse_header (data : list byte) : option (Z * Z * Z) :=
  b0 ← data !! 0%nat;
  b1 ← data !! 1%nat;
  sequence ← read_u16 data 2;
  Some (byte_val b0, byte_val b1, sequence).

(** [data] is the received buffer, [length data] the C parameter [length]. *)
Definition network_process_packet (m : NetworkManager) (data : list byte)
    (from_addr : sockaddr) : NetworkManager * list Effect :=
  if Z.of_nat (length data) <? 4 then (m, [])
  else
    match parse_header data with
    | Some (protocol_version, packet_type, sequence) =>
        if negb (protocol_version =? METAVERSE_PROTOCOL_VERSION)
        then (m, [PrintVersionMismatch])
        else (update_sequence_tracking m sequence,
              dispatch packet_type (drop 4 data) from_addr)
    | None => (m, [])
    end.

(** What one [recvfrom] on the non-blocking socket gives. *)
Inductive RecvResult : Set :=
| RecvDatagram (data : list byte) (from_addr : sockaddr)
| RecvWouldBlock
| RecvError.

(** One turn of the loop of [network_receive_thread]: the datagram is cut
    to the size of [buffer]; an empty one gives [received = 0]. *)
Definition network_receive_step (m : NetworkManager) (r : RecvResult)
    : NetworkManager * list Effect :=
  match r with
  | RecvDatagram datagram from_addr =>
      let buffer := take (Z.to_nat MAX_PACKET_SIZE) datagram in
      let received := Z.of_nat (length buffer) in
      if 0 <? received then
        network_process_packet
          (set_received_stats m (uint32 (packets_received m + 1))
             (uint32 (bytes_received m + received)))
          buffer from_addr
      else (m, [])
  | RecvWouldBlock => (m, [])
  | RecvError => (m, [PerrorReceive])
  end.

(** A run of packets through [network_process_packet], in order.  The
    bodies of the handlers are outside the repository: [handlers out m] is
    the manager the calls recorded in [out] leave behind. *)
Fixpoint process_packets
    (handlers : list Effect -> NetworkManager -> NetworkManager)
    (m : NetworkManager) (packets : list (list byte))
    (from_addr : sockaddr) : NetworkManager * list Effect :=
  match packets with
  | [] => (m, [])
  | data :: rest =>
      let '(m1, out1) := network_process_packet m data from_addr in
      let '(m2, out2) :=
        process_packets handlers (handlers out1 m1) rest from_addr in
      (m2, out1 ++ out2)
  end.

(** Handlers that leave the sequence tracking of the receive path alone. *)
Definition keeps_sequence_tracking
    (handlers : list Effect -> NetworkManager -> NetworkManager) : Prop :=
  forall out m,
    last_received_sequence (handlers out m) = last_received_sequence m /\
    packets_lost (handlers out m) = packets_lost m.

(** Handlers that only count their calls, in [packets_sent]. *)
Definition counting_handlers (out : list Effect) (m : NetworkManager)
    : NetworkManager :=
  mkNetworkManager (is_server m) (is_connected m) (server_address m)
    (players m) (local_player_id m) (entities m) (snapshots m)
    (snapshot_head m) (snapshot_tail m) (sent_packets m)
    (next_send_sequence m) (last_received_sequence m) (network_active m)
    (packets_sent m + Z.of_nat (length out)) (packets_received m)
    (packets_lost m) (bytes_sent m) (bytes_received m) (average_ping m)
    (packet_loss_rate m).

Definition zero_snapshot : NetworkSnapshot :=
  mkNetworkSnapshot 0 0 0 [] 0 (replicate 32 0).

Definition zero_reliable_packet : ReliablePacket :=
  mkReliablePacket 0 0 0 0 [] 0 false 0.

(** The manager [network_manager_create] returns, once the socket is set
    up: everything zero. *)
Definition network_manager_create (server : bool) (addr : sockaddr)
    : NetworkManager :=
  mkNetworkManager server false addr [] 0 [] (replicate 64 zero_snapshot)
    0 0 (replicate 1024 zero_reliable_packet) 0 0 false
    0 0 0 0 0 (S754_zero false) (S754_zero false).

(** A packet with the given header fields and payload, as a sender on a
    little-endian host lays it out. *)
Definition byte_of_Z (n : Z) : byte :=
  match Byte.of_N (Z.to_N (uint8 n)) with Some b => b | None => x00 end.

Definition make_packet (version packet_type sequence : Z)
    (payload : list byte) : list byte :=
  byte_of_Z version :: byte_of_Z packet_type ::
  byte_of_Z (sequence mod 256) :: byte_of_Z (sequence / 256) :: payload.

(** ** Sending: [network_send_snapshot] *)

Definition set_snapshot_sent (m : NetworkManager)
    (ring : list NetworkSnapshot) (head seq sent bytes : Z)
    : NetworkManager :=
  mkNetworkManager (is_server m) (is_connected m) (server_address m)
    (players m) (local_player_id m) (entities m) ring
    head (snapshot_tail m) (sent_packets m)
    seq (last_received_sequence m) (network_active m)
    sent (packets_received m) (packets_lost m)
    bytes (bytes_received m) (average_ping m) (packet_loss_rate m).

(** The loop that fills [snapshot.entities]: [count] is
    [snapshot.entity_count], [acc] the slots written so far, [i] the loop
    index and [clock i] what [time(NULL)] returns in turn [i]. *)
Fixpoint snapshot_collect (clock : nat -> Z) (i : nat)
    (es : list NetworkEntity) (count : Z) (acc : list NetworkEntity)
    : Z * list NetworkEntity :=
  match es with
  | [] => (count, acc)
  | e :: rest =>
      if count >=? MAX_ENTITIES_PER_PACKET then (count, acc)
      else
        let now := uint32 (clock i) in
        if uint32 (now - last_update e) <=? 2
        then snapshot_collect clock (S i) rest (uint32 (count + 1)) (acc ++ [e])
        else snapshot_collect clock (S i) rest count acc
  end.

(** [snapshot.player_ids[i / 32] |= (1 << (i % 32))] for every connected
    player [i]. *)
Fixpoint player_bitmask (ps : list NetworkPlayer) (i : nat) (ids : list Z)
    : list Z :=
  match ps with
  | [] => ids
  | p :: rest =>
      let ids' :=
        if connected p then
          alter (fun w => uint32 (Z.lor w (Z.shiftl 1 (Z.of_nat (i mod 32)))))
            (i / 32)%nat ids
        else ids in
      player_bitmask rest (S i) ids'
  end.

(** The snapshot the function builds before it serializes it.  [now] is the
    first reading of the clock, [clock] the readings inside the loop. *)
Definition build_snapshot (m : NetworkManager) (snapshot_counter : Z)
    (now : Z) (clock : nat -> Z) : NetworkSnapshot :=
  let '(count, slots) := snapshot_collect clock 0 (entities m) 0 [] in
  mkNetworkSnapshot snapshot_counter (uint32 now) count slots
    (Z.of_nat (player_count m))
    (player_bitmask (players m) 0 (replicate 32 0)).

Definition sizeof_Vector4 : Z := 16.

(** Bytes the serialization writes: the header, three words, one record of
    mask, id, owner, type and three vectors for each entity, and the
    bitmask. *)
Definition snapshot_packet_size (snapshot : NetworkSnapshot) : Z :=
  4 + 12 + snap_entity_count snapshot * (1 + 8 + 4 + 1 + 3 * sizeof_Vector4)
  + 4 * (MAX_PLAYERS / 32).

Fixpoint send_to_connected (ps : list NetworkPlayer) (packet_size : Z)
    : list Effect :=
  match ps with
  | [] => []
  | p :: rest =>
      if connected p
      then Sendto (address p) packet_size :: send_to_connected rest packet_size
      else send_to_connected rest packet_size
  end.

(** What one call of [network_send_snapshot] comes to.  A client returns at
    once.  On a server the snapshot is built and stored, and then serialized
    into [uint8_t packet[MAX_PACKET_SIZE]]: the serialization writes
    [snapshot_packet_size snapshot] bytes from the start of the array,
    whatever its size, so a snapshot of more than 20 entities is written past
    the end of [packet] and the rest of the call is undefined. *)
Inductive SnapshotResult : Type :=
  | NotServer
  | PacketOverrun (snapshot : NetworkSnapshot)
  | SnapshotSent (m' : NetworkManager) (snapshot_counter' : Z)
      (snapshot : NetworkSnapshot) (out : list Effect).

(** The snapshot a call has built, where it built one. *)
Definition built_snapshot (r : SnapshotResult) : option NetworkSnapshot :=
  match r with
  | NotServer => None
  | PacketOverrun snapshot => Some snapshot
  | SnapshotSent _ _ snapshot _ => Some snapshot
  end.

(** [snapshot_counter] is the function's [static] counter.  The bytes of the
    packet are not modelled, only their number and whether they stay inside
    [packet]. *)
Definition network_send_snapshot (m : NetworkManager) (snapshot_counter : Z)
    (now : Z) (clock : nat -> Z) : SnapshotResult :=
  if negb (is_server m) then NotServer
  else
    let snapshot := build_snapshot m snapshot_counter now clock in
    let ring := <[Z.to_nat (snapshot_head m) := snapshot]> (snapshots m) in
    let head := (snapshot_head m + 1) mod 64 in
    let packet_size := snapshot_packet_size snapshot in
    if MAX_PACKET_SIZE <? packet_size then PacketOverrun snapshot
    else
      let out := send_to_connected (players m) packet_size in
      let sends := Z.of_nat (length out) in
      SnapshotSent
        (set_snapshot_sent m ring head
           (uint16 (next_send_sequence m + 1))
           (uint32 (packets_sent m + sends))
           (uint32 (bytes_sent m + sends * packet_size)))
        (uint32 (snapshot_counter + 1)) snapshot out.

(** ** Client side: interpolation *)

(** [alpha] of the interpolation loop. *)
Definition interpolation_alpha (now : Z) (entity : NetworkEntity)
    : spec_float :=
  let alpha :=
    F32.div (F32.of_Z (uint32 (now - last_update entity)))
      (F32.of_Z (interpolation_time entity)) in
  F32.fminf (F32.fmaxf alpha F32.zero) F32.one.

(** The body of the loop: [alpha] is computed and then not used; no field
    of the entity is assigned. *)
Definition interpolate_entity (local : Z) (now : Z)
    (entity : NetworkEntity) : NetworkEntity :=
  if owner_id entity =? local then entity
  else if uint32 (now - last_update entity) >? 1000 then entity
  else if interpolation_time entity >? 0 then
    let alpha := interpolation_alpha now entity in
    entity
  else entity.

(** The position the specification describes, to compare with the loop
    above: the blend of [p0] and [p1] by the clamped share of the window
    [t0 .. t1] that has passed at [t]. *)
Definition spec_blend (a b alpha : spec_float) : spec_float :=
  F32.add a (F32.mul (F32.sub b a) alpha).

Definition spec_interpolated_position (p0 : Vector4) (t0 : Z)
    (p1 : Vector4) (t1 : Z) (t : Z) : Vector4 :=
  let alpha :=
    F32.fminf
      (F32.fmaxf (F32.div (F32.of_Z (t - t0)) (F32.of_Z (t1 - t0))) F32.zero)
      F32.one in
  mkVector4 (spec_blend (vx p0) (vx p1) alpha) (spec_blend (vy p0) (vy p1) alpha)
    (spec_blend (vz p0) (vz p1) alpha) (spec_blend (vw p0) (vw p1) alpha).

Definition network_interpolate_entities (m : NetworkManager) (now : Z)
    : NetworkManager :=
  if is_server m then m
  else
    set_entities m
      (map (interpolate_entity (local_player_id m) (uint32 now)) (entities m)).

(** ** Client side: reconciliation *)

Definition vector_distance (a b : Vector4) : spec_float :=
  let dx := F32.sub (vx a) (vx b) in
  let dy := F32.sub (vy a) (vy b) in
  let dz := F32.sub (vz a) (vz b) in
  F32.sqrtf (F32.add (F32.add (F32.mul dx dx) (F32.mul dy dy)) (F32.mul dz dz)).

(** Index of the first entity with the given id. *)
Fixpoint find_entity_index (es : list NetworkEntity) (id : Z) : option nat :=
  match es with
  | [] => None
  | e :: rest =>
      if entity_id e =? id then Some O
      else S <$> find_entity_index rest id
  end.

(** [find_server_entity] searches the manager's own entity table; the
    pointer it returns is the index of the slot. *)
Definition find_server_entity (m : NetworkManager) (id : Z) : option nat :=
  find_entity_index (entities m) id.

(** The test of the [if]: position further than [0.1f] or rotation further
    than [0.01f]. *)
Definition state_mismatch (entity server_entity : NetworkEntity) : bool :=
  F32.gtb (vector_distance (position entity) (position server_entity))
    F32.lit_0_1
  || F32.gtb (vector_distance (rotation entity) (rotation server_entity))
       F32.lit_0_01.

(** [entity->position = server_entity->position;
     entity->rotation = server_entity->rotation;] *)
Definition snap_to (entity server_entity : NetworkEntity) : NetworkEntity :=
  mkNetworkEntity (entity_id entity) (owner_id entity) (entity_type entity)
    (flags entity) (position server_entity) (rotation server_entity)
    (velocity entity) (last_update entity) (interpolation_time entity).

(** One turn of the loop, for index [i]. *)
Definition reconcile_entity (st : NetworkManager * list Effect) (i : nat)
    : NetworkManager * list Effect :=
  let '(m, out) := st in
  match entities m !! i with
  | None => st
  | Some entity =>
      if negb (owner_id entity =? local_player_id m) then st
      else
        match find_server_entity m (entity_id entity) with
        | None => st
        | Some j =>
            match entities m !! j with
            | None => st
            | Some server_entity =>
                if state_mismatch entity server_entity then
                  (set_entities m
                     (<[i := snap_to entity server_entity]> (entities m)),
                   out ++ [PrintStateMismatch (entity_id entity)])
                else st
            end
        end
  end.

Definition network_reconcile_state (m : NetworkManager)
    : NetworkManager * list Effect :=
  if is_server m then (m, [])
  else foldl reconcile_entity (m, []) (seq 0 (entity_count m)).

(** ** Voice: the layout of [VoicePacket] and [network_send_voice] *)

(** A member of a C struct: its size and its alignment. *)
Record Member : Set := mkMember { member_size : Z; member_align : Z }.

Definition align_up (off a : Z) : Z := (off + a - 1) / a * a.

(** Every member goes to the next multiple of its alignment; the result is
    the offsets and the first free offset. *)
Fixpoint member_offsets (ms : list Member) (off : Z) : list Z * Z :=
  match ms with
  | [] => ([], off)
  | mb :: rest =>
      let o := align_up off (member_align mb) in
      let '(os, e) := member_offsets rest (o + member_size mb) in
      (o :: os, e)
  end.

Definition struct_align (ms : list Member) : Z :=
  fold_right Z.max 1 (map member_align ms).

(** The size of a struct is rounded up to its alignment. *)
Definition struct_size (ms : list Member) : Z :=
  align_up (snd (member_offsets ms 0)) (struct_align ms).

Definition sizeof_audio_data : Z := 1200.

(** [VoicePacket], scalars aligned to their size. *)
Definition VoicePacket_members : list Member :=
  [ mkMember 4 4      (* uint32_t player_id *)
  ; mkMember 2 2      (* uint16_t sequence *)
  ; mkMember 4 4      (* uint32_t timestamp *)
  ; mkMember 1 1      (* uint8_t codec *)
  ; mkMember 1 1      (* uint8_t channels *)
  ; mkMember 2 2      (* uint16_t sample_rate *)
  ; mkMember 2 2      (* uint16_t data_size *)
  ; mkMember sizeof_audio_data 1   (* uint8_t audio_data[1200] *)
  ].

Definition sizeof_VoicePacket : Z := struct_size VoicePacket_members.

Definition offsetof_audio_data : Z :=
  List.last (fst (member_offsets VoicePacket_members 0)) 0.

(** Bytes [off, off + n) lie inside an object of [size] bytes. *)
Definition in_object (off n size : Z) : bool :=
  (0 <=? off) && (0 <=? n) && (off + n <=? size).

Definition set_sent (m : NetworkManager) (seq sent bytes : Z)
    : NetworkManager :=
  mkNetworkManager (is_server m) (is_connected m) (server_address m)
    (players m) (local_player_id m) (entities m) (snapshots m)
    (snapshot_head m) (snapshot_tail m) (sent_packets m)
    seq (last_received_sequence m) (network_active m)
    sent (packets_received m) (packets_lost m)
    bytes (bytes_received m) (average_ping m) (packet_loss_rate m).

(** The broadcast of the server: every connected player but the local
    one. *)
Fixpoint send_to_others (ps : list NetworkPlayer) (local : Z)
    (packet_size : Z) : list Effect :=
  match ps with
  | [] => []
  | p :: rest =>
      if connected p && negb (player_id p =? local)
      then Sendto (address p) packet_size :: send_to_others rest local packet_size
      else send_to_others rest local packet_size
  end.

(** Number of bytes of [voice] the function serializes:
    [sizeof(VoicePacket) - sizeof(voice.audio_data) + data_size]. *)
Definition voice_serialized_size (data_size : Z) : Z :=
  sizeof_VoicePacket - sizeof_audio_data + data_size.

(** [network_send_voice].  The result is [None] when one of the two [memcpy]
    leaves the object it copies into or out of, which C leaves undefined:
    the first writes [data_size] bytes from the start of
    [voice.audio_data], the second reads [voice_serialized_size data_size]
    bytes from the start of [voice] and writes them at [packet + 4].
    The extent of the caller's buffer is the caller's matter and the bytes
    copied are not modelled. *)
Definition network_send_voice (m : NetworkManager)
    (data_size channels sample_rate : Z)
    : option (NetworkManager * list Effect) :=
  if negb (is_connected m) then Some (m, [])
  else if negb (in_object 0 data_size sizeof_audio_data) then None
  else
    let n := voice_serialized_size data_size in
    if negb (in_object 0 n sizeof_VoicePacket
             && in_object 4 n MAX_PACKET_SIZE) then None
    else
      let packet_size := 4 + n in
      let out :=
        if is_server m
        then send_to_others (players m) (local_player_id m) packet_size
        else [Sendto (server_address m) packet_size] in
      Some (set_sent m (uint16 (next_send_sequence m + 1))
              (uint32 (packets_sent m + 1))
              (uint32 (bytes_sent m + packet_size)),
            out).

(** ** Reliable retransmission *)

Record RetryConfig : Set := mkRetryConfig {
  retry_timeout : Z;   (* the fixed retransmission timeout *)
  max_retries : Z      (* the maximum reliable-retry count *)
}.

Inductive ReliableEvent : Set :=
| Retransmit (sequence : Z)
| PeerUnreachable.

Definition set_retry (p : ReliablePacket) (now : Z) (retries : Z)
    : ReliablePacket :=
  mkReliablePacket (rp_sequence p) (rp_ack p) (rp_ack_bitfield p)
    (rp_packet_type p) (rp_data p) now (rp_acked p) retries.

(** Modelled from the spec: the treatment of one record by
    [network_send_reliable_retries], which [network_send_thread] calls on
    every tick and whose body is missing from the repository.  An
    acknowledged record is destroyed; an unacknowledged one is retransmitted
    once its timeout has passed, up to [max_retries] times; after that the
    record is destroyed and the peer reported unreachable.  [None] stands
    for a destroyed record. *)
Definition retry_reliable_packet (cfg : RetryConfig) (now : Z)
    (p : ReliablePacket) : option ReliablePacket * list ReliableEvent :=
  if rp_acked p then (None, [])
  else if now - rp_send_time p <? retry_timeout cfg then (Some p, [])
  else if rp_retry_count p <? max_retries cfg then
    (Some (set_retry p now (uint8 (rp_retry_count p + 1))),
     [Retransmit (rp_sequence p)])
  else (None, [PeerUnreachable]).

(** Modelled from the spec: [network_send_reliable_retries] over the queue
    of records not yet destroyed. *)
Fixpoint network_send_reliable_retries (cfg : RetryConfig) (now : Z)
    (queue : list ReliablePacket)
    : list ReliablePacket * list ReliableEvent :=
  match queue with
  | [] => ([], [])
  | p :: rest =>
      let '(p', ev) := retry_reliable_packet cfg now p in
      let '(rest', evs) := network_send_reliable_retries cfg now rest in
      (match p' with Some q => q :: rest' | None => rest' end, ev ++ evs)
  end.

(** The life of one record over the ticks at times [ticks]: what is sent
    or signalled for it. *)
Fixpoint retry_lifetime (cfg : RetryConfig) (ticks : list Z)
    (p : ReliablePacket) : list ReliableEvent :=
  match ticks with
  | [] => []
  | now :: later =>
      match retry_reliable_packet cfg now p with
      | (Some p', ev) => ev ++ retry_lifetime cfg later p'
      | (None, ev) => ev
      end
  end.

Definition set_connected (p : NetworkPlayer) (c : bool) : NetworkPlayer :=
  mkNetworkPlayer (player_id p) (username p) (address p) (connect_time p)
    (last_packet_time p) (ping p) (sequence_number p) (authenticated p) c
    (input_sequence p) (input_state p) (owned_entities p)
    (owned_entity_count p).

(** Modelled from the spec: [disconnect(peerId)] of the session registry,
    which is not in the repository: the peer's record is marked as not
    connected. *)
Definition registry_disconnect (ps : list NetworkPlayer) (peer : Z)
    : list NetworkPlayer :=
  map (fun p => if player_id p =? peer then set_connected p false else p) ps.

(** Modelled from the spec: a peer whose keepalive timed out is
    disconnected. *)
Definition registry_keepalive_timeout (ps : list NetworkPlayer) (peer : Z)
    (now timeout : Z) : list NetworkPlayer :=
  map (fun p =>
         if (player_id p =? peer) && (timeout <? now - last_packet_time p)
         then set_connected p false else p) ps.

(** Modelled from the spec: the registry reacts to the signals of the
    reliable channel to [peer]; peer-unreachable disconnects the peer. *)
Fixpoint registry_react (ps : list NetworkPlayer) (peer : Z)
    (evs : list ReliableEvent) : list NetworkPlayer :=
  match evs with
  | [] => ps
  | PeerUnreachable :: rest => registry_react (registry_disconnect ps peer) peer rest
  | Retransmit _ :: rest => registry_react ps peer rest
  end.

(** Modelled from the spec: one tick of the reliable channel to [peer]. *)
Definition reliable_tick (cfg : RetryConfig) (now : Z) (peer : Z)
    (st : list ReliablePacket * list NetworkPlayer)
    : list ReliablePacket * list NetworkPlayer * list ReliableEvent :=
  let '(queue, ps) := st in
  let '(queue', evs) := network_send_reliable_retries cfg now queue in
  (queue', registry_react ps peer evs, evs).

(** A buffer with a full header of the supported version and the given
    sequence number. *)
Definition packet_has_sequence (data : list byte) (sequence : Z) : bool :=
  match parse_header data with
  | Some (v, _, s) => (v =? METAVERSE_PROTOCOL_VERSION) && (s =? sequence)
  | None => false
  end.

(** ** Definitions used in the statements and proofs *)

(** Seventy entities, all updated at time 100. *)
Definition seventy_fresh_entities : list NetworkEntity :=
  replicate 70
    (mkNetworkEntity 1 0 0 0
       (mkVector4 F32.zero F32.zero F32.zero F32.zero)
       (mkVector4 F32.zero F32.zero F32.zero F32.one)
       (mkVector4 F32.zero F32.zero F32.zero F32.zero) 100 0).

(** What the loop decides for [entity], read off the table [es] as it is
    before the loop: the server entity to snap to, if any. *)
Definition correction_for (es : list NetworkEntity) (local : Z)
    (entity : NetworkEntity) : option NetworkEntity :=
  if negb (owner_id entity =? local) then None
  else
    j ← find_entity_index es (entity_id entity);
    server_entity ← es !! j;
    if state_mismatch entity server_entity then Some server_entity else None.

Definition reconciled (es : list NetworkEntity) (local : Z)
    (entity : NetworkEntity) : NetworkEntity :=
  match correction_for es local entity with
  | Some server_entity => snap_to entity server_entity
  | None => entity
  end.

(** The lines the turn of [entity] prints. *)
Definition reconcile_output (es : list NetworkEntity) (local : Z)
    (entity : NetworkEntity) : list Effect :=
  match correction_for es local entity with
  | Some _ => [PrintStateMismatch (entity_id entity)]
  | None => []
  end.

(** The table after [k] turns of the loop. *)
Definition table_after (es : list NetworkEntity) (local : Z) (k : nat)
    : list NetworkEntity :=
  map (reconciled es local) (take k es) ++ drop k es.

(** A sample table: three slots for entity 7, owned by the local peer 0.
    The first is what the search finds; the second is one unit away from
    it, the third agrees with it. *)
Definition sample_entity (x : Z) : NetworkEntity :=
  mkNetworkEntity 7 0 0 0
    (mkVector4 (F32.of_Z x) F32.zero F32.zero F32.zero)
    (mkVector4 F32.zero F32.zero F32.zero F32.one)
    (mkVector4 F32.zero F32.zero F32.zero F32.zero) 100 2.

Definition sample_client : NetworkManager :=
  set_entities (network_manager_create false 0)
    [sample_entity 0; sample_entity 1; sample_entity 0].

(** A client whose table has one slot for each id, as the tables the
    program fills have: its only entity, 7, belongs to the local peer and is
    predicted one unit along x. *)
Definition diverged_client : NetworkManager :=
  set_entities (network_manager_create false 0) [sample_entity 1].

(** The state the server holds for entity 7: at the origin. *)
Definition authoritative_entity : NetworkEntity := sample_entity 0.

(** A zero of either sign, or a NaN. *)
Definition zero_or_nan (x : spec_float) : bool :=
  match x with
  | S754_zero _ | S754_nan => true
  | _ => false
  end.

(** A sample channel: timeout 2, three retries, and a record that has used
    them up. *)
Definition sample_config : RetryConfig := mkRetryConfig 2 3.

Definition sample_record : ReliablePacket :=
  mkReliablePacket 41 0 0 9 [] 100 false 3.

Definition sample_peer : NetworkPlayer :=
  mkNetworkPlayer 5 [] 0 0 90 0 0 true true 0 [] [] 0.

Definition is_retransmit (ev : ReliableEvent) : bool :=
  match ev with Retransmit _ => true | PeerUnreachable => false end.

(** ** Sending: [network_send_entity_update] *)

(** [n] in [k] bytes, least significant first: what a store through a
    [uint16_t*], [uint32_t*] or [uint64_t*] leaves on a little-endian
    host. *)
Fixpoint le_bytes (k : nat) (n : Z) : list byte :=
  match k with
  | O => []
  | S k' => byte_of_Z (n mod 256) :: le_bytes k' (n / 256)
  end.

(** The read that undoes [le_bytes]. *)
Fixpoint read_le (k : nat) (data : list byte) : Z :=
  match k, data with
  | S k', b :: rest => byte_val b + 256 * read_le k' rest
  | _, _ => 0
  end.

(** The 16 bytes [memcpy] takes from a [Vector4]; [float_bytes] gives the
    four bytes of a [float] in memory. *)
Definition vector_bytes (float_bytes : spec_float -> list byte)
    (v : Vector4) : list byte :=
  float_bytes (vx v) ++ float_bytes (vy v) ++ float_bytes (vz v)
  ++ float_bytes (vw v).

(** The bytes the function writes into [packet]: the header, the entity
    and the time stamp. *)
Definition entity_update_packet (float_bytes : spec_float -> list byte)
    (sequence : Z) (entity : NetworkEntity) (now : Z) : list byte :=
  [byte_of_Z METAVERSE_PROTOCOL_VERSION;
   byte_of_Z (packet_type_code PACKET_ENTITY_UPDATE)]
  ++ le_bytes 2 sequence
  ++ le_bytes 8 (entity_id entity)
  ++ le_bytes 4 (owner_id entity)
  ++ [byte_of_Z (entity_type entity)]
  ++ le_bytes 4 (flags entity)
  ++ vector_bytes float_bytes (position entity)
  ++ vector_bytes float_bytes (rotation entity)
  ++ vector_bytes float_bytes (velocity entity)
  ++ le_bytes 4 (uint32 now).

(** [packet_size = ptr - packet + 4], with [ptr] at the time stamp. *)
Definition entity_update_packet_size : Z :=
  (4 + 8 + 4 + 1 + 4 + 3 * sizeof_Vector4) + 4.

Fixpoint datagrams_to_connected (ps : list NetworkPlayer)
    (packet : list byte) : list (sockaddr * list byte) :=
  match ps with
  | [] => []
  | p :: rest =>
      if connected p
      then (address p, packet) :: datagrams_to_connected rest packet
      else datagrams_to_connected rest packet
  end.

(** [network_send_entity_update]; [now] is the reading of the clock.  The
    result lists the datagrams handed to [sendto]: the first [packet_size]
    bytes of [packet], for each destination. *)
Definition network_send_entity_update (float_bytes : spec_float -> list byte)
    (m : NetworkManager) (entity : NetworkEntity) (now : Z)
    : NetworkManager * list (sockaddr * list byte) :=
  if negb (is_connected m) then (m, [])
  else
    let packet :=
      entity_update_packet float_bytes (next_send_sequence m) entity now in
    let packet_size := entity_update_packet_size in
    let sent := take (Z.to_nat packet_size) packet in
    let out :=
      if is_server m then datagrams_to_connected (players m) sent
      else [(server_address m, sent)] in
    (set_sent m (uint16 (next_send_sequence m + 1))
       (uint32 (packets_sent m + 1))
       (uint32 (bytes_sent m + packet_size)),
     out).

(** Several updates, one call after the other. *)
Fixpoint send_entity_updates (float_bytes : spec_float -> list byte)
    (m : NetworkManager) (updates : list (NetworkEntity * Z))
    : NetworkManager * list (sockaddr * list byte) :=
  match updates with
  | [] => (m, [])
  | (entity, now) :: rest =>
      let '(m1, out1) := network_send_entity_update float_bytes m entity now in
      let '(m2, out2) := send_entity_updates float_bytes m1 rest in
      (m2, out1 ++ out2)
  end.

(** The memory image of a [float] as IEEE-754 binary32, least significant
    byte first; a NaN as the default quiet NaN. *)
Definition ieee_bits (x : spec_float) : Z :=
  let sign (s : bool) := if s then 2147483648 else 0 in
  match x with
  | S754_zero s => sign s
  | S754_infinity s => sign s + 2139095040
  | S754_nan => 2143289344
  | S754_finite s m e =>
      if Z.pos m <? 8388608 then sign s + Z.pos m
      else sign s + (e + 150) * 8388608 + (Z.pos m - 8388608)
  end.

Definition ieee_float_bytes (x : spec_float) : list byte :=
  le_bytes 4 (ieee_bits x).

(** ** Definitions used in the further properties *)

(** Zero, a positive number or plus infinity: not a NaN, not negative. *)
Definition not_negative (x : spec_float) : bool :=
  match x with
  | S754_zero _ | S754_finite false _ _ | S754_infinity false => true
  | _ => false
  end.

Definition is_positive_finite (x : spec_float) : bool :=
  match x with
  | S754_finite false _ _ => true
  | _ => false
  end.

(** The test of the snapshot loop for the entity met in turn [i]. *)
Definition recent_at (clock : nat -> Z) (ie : nat * NetworkEntity) : bool :=
  uint32 (uint32 (clock (fst ie)) - last_update (snd ie)) <=? 2.

(** The position and the rotation agree in [x], [y] and [z]. *)
Definition same_xyz (a b : Vector4) : Prop :=
  vx a = vx b /\ vy a = vy b /\ vz a = vz b.

(** [f] at [p] and at every number whose binary digits extend those of [p]
    by at most [d] more. *)
Fixpoint all_extensions (d : nat) (f : positive -> bool) (p : positive)
    : bool :=
  match d with
  | O => f p && true
  | S d' => f p && (all_extensions d' f p~0 && all_extensions d' f p~1)
  end.

(** Sequence numbers that climb from [last] without wrapping. *)
Fixpoint increasing_from (last : Z) (seqs : list Z) : Prop :=
  match seqs with
  | [] => True
  | s :: rest => last < s < 65536 /\ increasing_from s rest
  end.

(** A sample client that is connected, with the server at address 9. *)
Definition sample_connected_client : NetworkManager :=
  mkNetworkManager false true 9 [] 0 [] (replicate 64 zero_snapshot) 0 0 []
    0 0 true 0 0 0 0 0 F32.zero F32.zero.

(** The test of the snapshot loop at a clock that stands at [t]. *)
Definition recent (t : Z) (e : NetworkEntity) : bool :=
  uint32 (uint32 t - last_update e) <=? 2.

(** Bit [k] of a bitmask of 32-bit words. *)
Definition mask_bit (ids : list Z) (k : nat) : bool :=
  Z.testbit (default 0 (ids !! (k / 32)%nat)) (Z.of_nat (k mod 32)).

Definition player_connected (ps : list NetworkPlayer) (k : nat) : bool :=
  match ps !! k with
  | Some p => connected p
  | None => false
  end.

(** * Properties *)

(** ** Integers *)

Lemma uint16_range n : 0 <= uint16 n < 65536.
Proof. apply Z.mod_pos_bound. reflexivity. Qed.

Lemma uint32_range n : 0 <= uint32 n < 4294967296.
Proof. apply Z.mod_pos_bound. reflexivity. Qed.

Lemma uint32_small n : 0 <= n < 4294967296 -> uint32 n = n.
Proof. intros H. apply Z.mod_small. exact H. Qed.

Lemma byte_val_range b : 0 <= byte_val b < 256.
Proof.
  unfold byte_val. pose proof (Byte.to_N_bounded b) as H.
  split; [apply N2Z.is_nonneg | lia].
Qed.

(** ** The receive path *)

Lemma parse_header_length data h :
  parse_header data = Some h -> (4 <= length data)%nat.
Proof.
  unfold parse_header, read_u16. intros H.
  destruct (data !! 0%nat); simpl in H; [|discriminate].
  destruct (data !! 1%nat); simpl in H; [|discriminate].
  destruct (data !! 2%nat); simpl in H; [|discriminate].
  destruct (data !! 3%nat) eqn:E3; simpl in H; [|discriminate].
  apply lookup_lt_Some in E3. lia.
Qed.

Lemma parse_header_sequence_range data v t s :
  parse_header data = Some (v, t, s) -> 0 <= s < 65536.
Proof.
  unfold parse_header, read_u16. intros H.
  destruct (data !! 0%nat); simpl in H; [|discriminate].
  destruct (data !! 1%nat); simpl in H; [|discriminate].
  destruct (data !! 2%nat) as [lo|]; simpl in H; [|discriminate].
  destruct (data !! 3%nat) as [hi|]; simpl in H; [|discriminate].
  injection H as _ _ <-.
  pose proof (byte_val_range lo). pose proof (byte_val_range hi). lia.
Qed.

(** A packet of the supported version goes through sequence tracking and
    on to the dispatch. *)
Lemma process_packet_accepted m data from_addr t s :
  parse_header data = Some (METAVERSE_PROTOCOL_VERSION, t, s) ->
  network_process_packet m data from_addr =
    (update_sequence_tracking m s, dispatch t (drop 4 data) from_addr).
Proof.
  intros H. unfold network_process_packet.
  pose proof (parse_header_length _ _ H) as Hlen.
  destruct (Z.ltb_spec (Z.of_nat (length data)) 4) as [Hlt|_]; [lia|].
  rewrite H. reflexivity.
Qed.

Lemma update_sequence_tracking_last m s :
  last_received_sequence (update_sequence_tracking m s) = s.
Proof. unfold update_sequence_tracking. destruct (negb _); reflexivity. Qed.

Lemma update_sequence_tracking_lost m s :
  packets_lost (update_sequence_tracking m s) =
    if s =? uint16 (last_received_sequence m + 1) then packets_lost m
    else uint32 (packets_lost m
                 + lost_packets (uint16 (last_received_sequence m + 1)) s).
Proof.
  unfold update_sequence_tracking.
  destruct (s =? uint16 (last_received_sequence m + 1)); reflexivity.
Qed.

Lemma packet_has_sequence_header data s :
  packet_has_sequence data s = true ->
  exists t, parse_header data = Some (METAVERSE_PROTOCOL_VERSION, t, s).
Proof.
  unfold packet_has_sequence. intros H.
  destruct (parse_header data) as [[[v t] s']|]; [|discriminate].
  apply andb_true_iff in H as [Hv Hs].
  apply Z.eqb_eq in Hv. apply Z.eqb_eq in Hs. subst. eauto.
Qed.

(** A buffer whose first byte is not the supported version leaves the
    manager as it is; nothing but the diagnostic line is produced. *)
Lemma process_packet_version_mismatch m data from_addr v :
  data !! 0%nat = Some v ->
  byte_val v <> METAVERSE_PROTOCOL_VERSION ->
  network_process_packet m data from_addr =
    (m, if Z.of_nat (length data) <? 4 then [] else [PrintVersionMismatch]).
Proof.
  intros H0 Hv. unfold network_process_packet.
  destruct (Z.ltb_spec (Z.of_nat (length data)) 4) as [|Hge]; [reflexivity|].
  unfold parse_header, read_u16. rewrite H0. simpl.
  destruct (data !! 1%nat) eqn:E1; [|apply lookup_ge_None in E1; lia].
  destruct (data !! 2%nat) eqn:E2; [|apply lookup_ge_None in E2; lia].
  destruct (data !! 3%nat) eqn:E3; [|apply lookup_ge_None in E3; lia].
  simpl.
  destruct (Z.eqb_spec (byte_val v) METAVERSE_PROTOCOL_VERSION) as [E|_];
    [contradiction|reflexivity].
Qed.

(** C2 (amended): the receive path measures the distance of a sequence
    number from the expected one in unsigned 16-bit arithmetic, modulo
    65536: it is never negative, a packet that is not the expected one is
    taken as a forward gap of that many lost packets, and the packet becomes
    the last received one.  So with 65530 last received, packet 5 counts as
    coming after it, with 10 packets lost in between. *)
Theorem sequence_distance_unsigned_wraparound :
  forall (m : NetworkManager) (data : list byte) (from_addr : sockaddr)
         (t s : Z),
    parse_header data = Some (METAVERSE_PROTOCOL_VERSION, t, s) ->
    let expected := uint16 (last_received_sequence m + 1) in
    let m' := fst (network_process_packet m data from_addr) in
    lost_packets expected s = (s - expected) mod 65536 /\
    0 <= lost_packets expected s < 65536 /\
    last_received_sequence m' = s /\
    packets_lost m' =
      (if s =? expected then packets_lost m
       else uint32 (packets_lost m + lost_packets expected s)) /\
    (last_received_sequence m = 65530 -> s = 5 ->
     lost_packets expected s = 10 /\
     packets_lost m' = uint32 (packets_lost m + 10)).
Proof.
  intros m data from_addr t s H expected m'.
  subst m'. rewrite (process_packet_accepted _ _ _ _ _ H). cbn [fst].
  rewrite update_sequence_tracking_last, update_sequence_tracking_lost.
  fold expected.
  split; [reflexivity|].
  split; [apply uint16_range|].
  split; [reflexivity|].
  split; [reflexivity|].
  intros Hlast Hs. subst expected. rewrite Hlast, Hs.
  split; reflexivity.
Qed.

Lemma sequence_distance_unsigned_wraparound_witness :
  let m := set_last_received_sequence (network_manager_create false 0) 65530 in
  let m' := fst (network_process_packet m (make_packet 1 10 5 []) 0) in
  last_received_sequence m' = 5 /\ packets_lost m' = 10.
Proof.
  intros m m'.
  destruct (sequence_distance_unsigned_wraparound m (make_packet 1 10 5 []) 0
              10 5 eq_refl) as (_ & _ & Hlast & _ & Hex).
  split; [exact Hlast|].
  destruct (Hex eq_refl eq_refl) as [_ Hlost]. exact Hlost.
Defined.

(** C2, as stated, fails: with 5 last received, packet 65530 lies 12 behind
    the expected packet 6 in signed 16-bit distance, yet the receive path
    takes it for a forward gap of 65524 lost packets and makes it the last
    received one. *)
Lemma sequence_distance_not_signed :
  let m := set_last_received_sequence (network_manager_create false 0) 5 in
  let m' := fst (network_process_packet m (make_packet 1 10 65530 []) 0) in
  spec_sequence_delta (uint16 (last_received_sequence m + 1)) 65530 = -12 /\
  lost_packets (uint16 (last_received_sequence m + 1)) 65530 = 65524 /\
  packets_lost m' = 65524 /\
  last_received_sequence m' = 65530.
Proof. vm_compute. repeat split. Qed.

(** C3 (amended): [network_process_packet] has no test for old packets.  A
    packet of the supported version whose sequence number is behind the
    expected one is treated like any other: it becomes the last received
    one and is handed to the handler of its packet type. *)
Theorem old_packet_not_dropped :
  forall (m : NetworkManager) (data : list byte) (from_addr : sockaddr)
         (t s : Z),
    parse_header data = Some (METAVERSE_PROTOCOL_VERSION, t, s) ->
    spec_sequence_delta (uint16 (last_received_sequence m + 1)) s < 0 ->
    last_received_sequence (fst (network_process_packet m data from_addr)) = s /\
    snd (network_process_packet m data from_addr) =
      dispatch t (drop 4 data) from_addr /\
    (forall h, handler_of_packet_type t = Some h ->
       snd (network_process_packet m data from_addr) =
         [CallHandler h (drop 4 data) from_addr]).
Proof.
  intros m data from_addr t s H _.
  rewrite (process_packet_accepted _ _ _ _ _ H). cbn [fst snd].
  split; [apply update_sequence_tracking_last|].
  split; [reflexivity|].
  intros h Hh. unfold dispatch. rewrite Hh. reflexivity.
Qed.

Lemma old_packet_not_dropped_witness :
  let m := set_last_received_sequence (network_manager_create false 0) 10 in
  last_received_sequence
    (fst (network_process_packet m (make_packet 1 10 5 []) 0)) = 5.
Proof.
  intros m.
  refine (proj1 (old_packet_not_dropped m (make_packet 1 10 5 []) 0 10 5
                   eq_refl _)).
  vm_compute. reflexivity.
Defined.

(** C3, as stated, fails: with 10 last received, the old packet 5 (six
    behind the expected packet 11) reaches the ping handler, adds 65530 to
    the lost packets and becomes the last received sequence. *)
Lemma old_packet_dispatched_and_counted :
  let m := set_last_received_sequence (network_manager_create false 0) 10 in
  let r := network_process_packet m (make_packet 1 10 5 []) 7 in
  spec_sequence_delta (uint16 (last_received_sequence m + 1)) 5 = -6 /\
  snd r = [CallHandler network_handle_ping [] 7] /\
  packets_lost m = 0 /\ packets_lost (fst r) = 65530 /\
  last_received_sequence m = 10 /\ last_received_sequence (fst r) = 5.
Proof. vm_compute. repeat split. Qed.

(** C5: from a last received sequence of 0, packets 1, 2, 4, 5 of the
    supported version, whatever their types and payloads, add exactly one
    to the count of lost packets, provided the handlers leave the sequence
    tracking alone. *)
Theorem loss_after_1_2_4_5 :
  forall (handlers : list Effect -> NetworkManager -> NetworkManager)
         (m : NetworkManager) (d1 d2 d4 d5 : list byte) (from_addr : sockaddr),
    keeps_sequence_tracking handlers ->
    last_received_sequence m = 0 ->
    packet_has_sequence d1 1 = true ->
    packet_has_sequence d2 2 = true ->
    packet_has_sequence d4 4 = true ->
    packet_has_sequence d5 5 = true ->
    packets_lost (fst (process_packets handlers m [d1; d2; d4; d5] from_addr)) =
      uint32 (packets_lost m + 1).
Proof.
  intros handlers m d1 d2 d4 d5 from_addr Hk H0 H1 H2 H4 H5.
  destruct (packet_has_sequence_header _ _ H1) as [t1 E1].
  destruct (packet_has_sequence_header _ _ H2) as [t2 E2].
  destruct (packet_has_sequence_header _ _ H4) as [t4 E4].
  destruct (packet_has_sequence_header _ _ H5) as [t5 E5].
  cbn [process_packets].
  rewrite (process_packet_accepted _ _ _ _ _ E1).
  rewrite (process_packet_accepted _ _ _ _ _ E2).
  rewrite (process_packet_accepted _ _ _ _ _ E4).
  rewrite (process_packet_accepted _ _ _ _ _ E5).
  cbn [fst].
  repeat (rewrite ?(proj1 (Hk _ _)), ?(proj2 (Hk _ _)),
            ?update_sequence_tracking_lost, ?update_sequence_tracking_last).
  rewrite H0. reflexivity.
Qed.

Lemma counting_handlers_keep_sequence_tracking :
  keeps_sequence_tracking counting_handlers.
Proof. intros out m. split; reflexivity. Qed.

Lemma loss_after_1_2_4_5_witness :
  let m := network_manager_create false 0 in
  packets_lost
    (fst (process_packets counting_handlers m
            [make_packet 1 10 1 []; make_packet 1 2 2 [x00];
             make_packet 1 7 4 []; make_packet 1 11 5 []] 0)) = 1.
Proof.
  intros m.
  exact (loss_after_1_2_4_5 counting_handlers m
           (make_packet 1 10 1 []) (make_packet 1 2 2 [x00])
           (make_packet 1 7 4 []) (make_packet 1 11 5 []) 0
           counting_handlers_keep_sequence_tracking
           eq_refl eq_refl eq_refl eq_refl eq_refl).
Defined.

(** C8: a received datagram whose version byte is not the supported one is
    dropped.  No handler is called; the sequence counters, the player
    records, the entity table and the loss statistics stay as they were;
    the receive loop has counted the datagram in [packets_received]. *)
Theorem version_mismatch_dropped :
  forall (m : NetworkManager) (datagram : list byte) (from_addr : sockaddr)
         (v : byte),
    datagram !! 0%nat = Some v ->
    byte_val v <> METAVERSE_PROTOCOL_VERSION ->
    let r := network_receive_step m (RecvDatagram datagram from_addr) in
    (forall h payload a, ~ In (CallHandler h payload a) (snd r)) /\
    last_received_sequence (fst r) = last_received_sequence m /\
    next_send_sequence (fst r) = next_send_sequence m /\
    players (fst r) = players m /\
    entities (fst r) = entities m /\
    sent_packets (fst r) = sent_packets m /\
    snapshots (fst r) = snapshots m /\
    packets_lost (fst r) = packets_lost m /\
    packet_loss_rate (fst r) = packet_loss_rate m /\
    packets_received (fst r) = uint32 (packets_received m + 1).
Proof.
  intros m datagram from_addr v H0 Hv r. subst r.
  unfold network_receive_step.
  assert (Hb : take (Z.to_nat MAX_PACKET_SIZE) datagram !! 0%nat = Some v).
  { rewrite lookup_take_lt; [exact H0|]. vm_compute. lia. }
  pose proof (lookup_lt_Some _ _ _ Hb) as Hlen.
  destruct (Z.ltb_spec 0
              (Z.of_nat (length (take (Z.to_nat MAX_PACKET_SIZE) datagram))))
    as [_|Hle]; [|lia].
  rewrite (process_packet_version_mismatch _ _ _ _ Hb Hv). simpl.
  split; [|repeat split].
  intros h payload a Hin.
  destruct (Z.of_nat _ <? 4); simpl in Hin.
  - exact Hin.
  - destruct Hin as [Hin|Hin]; [discriminate|exact Hin].
Qed.

Lemma version_mismatch_dropped_witness :
  let m := network_manager_create true 0 in
  let r := network_receive_step m (RecvDatagram (make_packet 2 10 5 []) 9) in
  last_received_sequence (fst r) = 0 /\ packets_received (fst r) = 1.
Proof.
  intros m r.
  assert (Hv : byte_val x02 <> METAVERSE_PROTOCOL_VERSION)
    by (vm_compute; discriminate).
  destruct (version_mismatch_dropped m (make_packet 2 10 5 []) 9 x02
              eq_refl Hv) as (_ & Hl & _ & _ & _ & _ & _ & _ & _ & Hr).
  split; [exact Hl | exact Hr].
Defined.

(** ** Snapshots *)

(** The loop keeps the counter equal to the number of slots written and
    never lets it pass the capacity of the snapshot. *)
Lemma snapshot_collect_bound clock es :
  forall i count acc,
    0 <= count <= MAX_ENTITIES_PER_PACKET ->
    count = Z.of_nat (length acc) ->
    0 <= fst (snapshot_collect clock i es count acc) <= MAX_ENTITIES_PER_PACKET /\
    fst (snapshot_collect clock i es count acc) =
      Z.of_nat (length (snd (snapshot_collect clock i es count acc))).
Proof.
  induction es as [|e rest IH]; intros i count acc Hc Hl;
    cbn [snapshot_collect].
  - split; assumption.
  - destruct (Z.geb_spec count MAX_ENTITIES_PER_PACKET) as [Hge|Hlt].
    + split; assumption.
    + unfold MAX_ENTITIES_PER_PACKET in Hlt.
      destruct (uint32 (uint32 (clock i) - last_update e) <=? 2).
      * assert (Hu : uint32 (count + 1) = count + 1)
          by (apply uint32_small; lia).
        rewrite Hu. apply IH; [unfold MAX_ENTITIES_PER_PACKET; lia|].
        rewrite length_app. simpl. lia.
      * apply IH; assumption.
Qed.

(** C6: whatever the entity table and the clock, the snapshot that
    [network_send_snapshot] builds, [build_snapshot], holds at most
    [MAX_ENTITIES_PER_PACKET] = 64 entities, and its counter is the number of
    slots filled.  A server builds this snapshot in every call, also in the
    calls whose packet then does not fit the send buffer; a client builds
    none. *)
Theorem snapshot_entity_count_bounded :
  forall (m : NetworkManager) (snapshot_counter now : Z) (clock : nat -> Z),
    let snapshot := build_snapshot m snapshot_counter now clock in
    0 <= snap_entity_count snapshot <= 64 /\
    snap_entity_count snapshot = Z.of_nat (length (snap_entities snapshot)) /\
    (length (snap_entities snapshot) <= 64)%nat /\
    built_snapshot (network_send_snapshot m snapshot_counter now clock) =
      (if is_server m then Some snapshot else None).
Proof.
  intros m snapshot_counter now clock snapshot.
  assert (Hb : 0 <= snap_entity_count snapshot <= 64 /\
               snap_entity_count snapshot =
                 Z.of_nat (length (snap_entities snapshot))).
  { subst snapshot. unfold build_snapshot.
    pose proof (snapshot_collect_bound clock (entities m) 0%nat 0 []) as H.
    destruct (snapshot_collect clock 0 (entities m) 0 []) as [count slots].
    simpl in *. apply H; [unfold MAX_ENTITIES_PER_PACKET; lia | reflexivity]. }
  destruct Hb as [Hr Hl].
  split; [exact Hr|]. split; [exact Hl|]. split; [lia|].
  unfold network_send_snapshot. fold snapshot.
  destruct (is_server m); cbn [negb]; [|reflexivity].
  destruct (MAX_PACKET_SIZE <? snapshot_packet_size snapshot); reflexivity.
Qed.

Lemma snapshot_entity_count_bounded_witness :
  let m := set_entities (network_manager_create true 0) seventy_fresh_entities in
  let snapshot := build_snapshot m 0 100 (fun _ => 100) in
  0 <= snap_entity_count snapshot <= 64 /\
  snap_entity_count snapshot = Z.of_nat (length (snap_entities snapshot)) /\
  (length (snap_entities snapshot) <= 64)%nat /\
  built_snapshot (network_send_snapshot m 0 100 (fun _ => 100)) =
    Some snapshot.
Proof.
  intros m.
  exact (snapshot_entity_count_bounded m 0 100 (fun _ => 100)).
Defined.

(** With more fresh entities than fit, the snapshot is full: the first 64
    of the table, in table order. *)
Example snapshot_of_seventy_is_full :
  let m := set_entities (network_manager_create true 0) seventy_fresh_entities in
  snap_entity_count (build_snapshot m 0 100 (fun _ => 100)) = 64 /\
  snap_entities (build_snapshot m 0 100 (fun _ => 100)) =
    take 64 seventy_fresh_entities.
Proof. vm_compute. split; reflexivity. Qed.

(** The packet of a full snapshot is larger than the buffer it is written
    to: 20 entities are the most that fit [MAX_PACKET_SIZE]. *)
Example snapshot_packet_size_full :
  snapshot_packet_size (mkNetworkSnapshot 0 0 20 [] 0 []) <= MAX_PACKET_SIZE /\
  MAX_PACKET_SIZE < snapshot_packet_size (mkNetworkSnapshot 0 0 21 [] 0 []) /\
  snapshot_packet_size (mkNetworkSnapshot 0 0 64 [] 0 []) = 4112.
Proof. vm_compute. repeat split; discriminate. Qed.

(** ** Voice *)

Lemma sizeof_VoicePacket_eq : sizeof_VoicePacket = 1220.
Proof. reflexivity. Qed.

Lemma offsetof_audio_data_eq : offsetof_audio_data = 18.
Proof. reflexivity. Qed.

Lemma send_to_others_sizes ps local size :
  Forall (fun e => exists a, e = Sendto a size) (send_to_others ps local size).
Proof.
  induction ps as [|p rest IH]; simpl; [constructor|].
  destruct (connected p && negb (player_id p =? local)); [|exact IH].
  constructor; [eauto | exact IH].
Qed.

(** C10: when [data_size] is at most 1200, the copy into
    [voice.audio_data] stays inside that array, the serializing copy stays
    inside [voice] and inside [packet], and the packet sent has
    [24 + data_size] bytes, no more than [MAX_PACKET_SIZE]. *)
Theorem voice_copies_in_bounds :
  forall (m : NetworkManager) (data_size channels sample_rate : Z),
    0 <= data_size <= 1200 ->
    in_object 0 data_size sizeof_audio_data = true /\
    in_object 0 (voice_serialized_size data_size) sizeof_VoicePacket = true /\
    in_object 4 (voice_serialized_size data_size) MAX_PACKET_SIZE = true /\
    4 + voice_serialized_size data_size = 24 + data_size /\
    24 + data_size <= MAX_PACKET_SIZE /\
    exists m' out,
      network_send_voice m data_size channels sample_rate = Some (m', out) /\
      Forall (fun e => exists a, e = Sendto a (24 + data_size)) out.
Proof.
  intros m data_size channels sample_rate Hd.
  assert (H1 : in_object 0 data_size sizeof_audio_data = true).
  { unfold in_object, sizeof_audio_data.
    rewrite !andb_true_iff, !Z.leb_le. lia. }
  assert (Hn : voice_serialized_size data_size = 20 + data_size).
  { unfold voice_serialized_size, sizeof_audio_data.
    rewrite sizeof_VoicePacket_eq. lia. }
  assert (H2 : in_object 0 (voice_serialized_size data_size)
                 sizeof_VoicePacket = true).
  { rewrite Hn, sizeof_VoicePacket_eq. unfold in_object.
    rewrite !andb_true_iff, !Z.leb_le. lia. }
  assert (H3 : in_object 4 (voice_serialized_size data_size)
                 MAX_PACKET_SIZE = true).
  { rewrite Hn. unfold in_object, MAX_PACKET_SIZE.
    rewrite !andb_true_iff, !Z.leb_le. lia. }
  split; [exact H1|]. split; [exact H2|]. split; [exact H3|].
  split; [lia|]. split; [unfold MAX_PACKET_SIZE; lia|].
  unfold network_send_voice.
  destruct (is_connected m); simpl.
  - rewrite H1, H2, H3. simpl. do 2 eexists. split; [reflexivity|].
    replace (4 + voice_serialized_size data_size) with (24 + data_size) by lia.
    destruct (is_server m).
    + apply send_to_others_sizes.
    + constructor; [eauto | constructor].
  - do 2 eexists. split; [reflexivity | constructor].
Qed.

Lemma voice_copies_in_bounds_witness :
  is_connected sample_connected_client = true /\
  in_object 0 1200 sizeof_audio_data = true /\
  in_object 0 (voice_serialized_size 1200) sizeof_VoicePacket = true /\
  in_object 4 (voice_serialized_size 1200) MAX_PACKET_SIZE = true /\
  exists m' out,
    network_send_voice sample_connected_client 1200 2 48000 = Some (m', out) /\
    Forall (fun e => exists a, e = Sendto a (24 + 1200)) out.
Proof.
  assert (H : 0 <= 1200 <= 1200) by lia.
  destruct (voice_copies_in_bounds sample_connected_client 1200 2 48000 H)
    as (H1 & H2 & H3 & _ & _ & Hs).
  split; [reflexivity|]. split; [exact H1|]. split; [exact H2|].
  split; [exact H3 | exact Hs].
Defined.

(** On that connected client the frame of 1200 bytes goes out once, to the
    server, in a datagram of 1224 bytes. *)
Example voice_full_frame_sent :
  snd <$> network_send_voice sample_connected_client 1200 2 48000 =
    Some [Sendto 9 1224].
Proof. reflexivity. Qed.

(** The bound is the caller's to keep: one byte more and the copy into
    [voice.audio_data] runs past the array. *)
Example voice_oversized_is_undefined :
  network_send_voice
    (mkNetworkManager false true 0 [] 0 [] [] 0 0 [] 0 0 true
       0 0 0 0 0 F32.zero F32.zero) 1201 2 48000 = None.
Proof. reflexivity. Qed.

(** ** Interpolation *)

Lemma interpolate_entity_id local now entity :
  interpolate_entity local now entity = entity.
Proof.
  unfold interpolate_entity.
  destruct (owner_id entity =? local); [reflexivity|].
  destruct (uint32 (now - last_update entity) >? 1000); [reflexivity|].
  destruct (interpolation_time entity >? 0); reflexivity.
Qed.

(** The call blends nothing.  The table holds one state for each entity;
    the loop at most computes the clamped factor and drops it.  Every
    entity, and so every position, is after the call what it was before. *)
Lemma interpolation_leaves_table (m : NetworkManager) (now : Z) :
  network_interpolate_entities m now = m.
Proof.
  unfold network_interpolate_entities.
  destruct (is_server m); [reflexivity|].
  destruct m; unfold set_entities; simpl. f_equal.
  induction entities0 as [|e rest IH]; simpl; [reflexivity|].
  rewrite interpolate_entity_id. f_equal. exact IH.
Qed.

(** C4: the position of an entity of another peer should be the blend
    [p0 + (p1 - p0) * clamp((t - t0) / (t1 - t0), 0, 1)] of its last two
    states; the loop computes the clamped factor and assigns nothing.  An
    entity was last seen at [(0,0,0)] and is now reported at [(1,0,0)], at
    time 100 with a window of 2; at time 101 half the window has passed,
    the factor is 0.5 and the blend [(0.5,0,0)].  The call leaves the
    position at whichever of the two states the table holds. *)
Theorem interpolation_not_blended :
  let f := F32.of_Z in
  let half := F32.div (f 1) (f 2) in
  let p0 := mkVector4 (f 0) (f 0) (f 0) (f 0) in
  let p1 := mkVector4 (f 1) (f 0) (f 0) (f 0) in
  let entity p := mkNetworkEntity 1 2 0 0 p p0 p0 100 2 in
  let m p := set_entities (network_manager_create false 0) [entity p] in
  local_player_id (m p1) <> owner_id (entity p1) /\
  interpolation_alpha 101 (entity p1) = half /\
  spec_interpolated_position p0 100 p1 102 101 = mkVector4 half (f 0) (f 0) (f 0) /\
  map position (entities (network_interpolate_entities (m p1) 101)) = [p1] /\
  map position (entities (network_interpolate_entities (m p0) 101)) = [p0] /\
  p1 <> spec_interpolated_position p0 100 p1 102 101 /\
  p0 <> spec_interpolated_position p0 100 p1 102 101.
Proof. vm_compute. repeat split; discriminate. Qed.

(** ** Reconciliation *)

Lemma snap_to_self entity : snap_to entity entity = entity.
Proof. destruct entity; reflexivity. Qed.

Lemma reconciled_entity_id es local entity :
  entity_id (reconciled es local entity) = entity_id entity.
Proof.
  unfold reconciled. destruct (correction_for es local entity); reflexivity.
Qed.

(** The search looks at the ids only. *)
Lemma find_entity_index_ids es1 : forall es2 id,
  map entity_id es1 = map entity_id es2 ->
  find_entity_index es1 id = find_entity_index es2 id.
Proof.
  induction es1 as [|e1 rest1 IH]; intros [|e2 rest2] id H;
    simpl in *; try discriminate; [reflexivity|].
  injection H as Hid Hrest. rewrite Hid.
  destruct (entity_id e2 =? id); [reflexivity|].
  rewrite (IH rest2 id Hrest). reflexivity.
Qed.

Lemma find_entity_index_Some es : forall id j,
  find_entity_index es id = Some j ->
  exists e, es !! j = Some e /\ entity_id e = id.
Proof.
  induction es as [|e rest IH]; intros id j H; simpl in H; [discriminate|].
  destruct (Z.eqb_spec (entity_id e) id) as [E|_].
  - injection H as <-. exists e. split; [reflexivity | exact E].
  - destruct (find_entity_index rest id) as [j'|] eqn:Ej; [|discriminate].
    injection H as <-. exact (IH id j' Ej).
Qed.

(** The slot the search returns is never changed by the loop: it is
    compared with itself. *)
Lemma reconciled_first es local id j e :
  find_entity_index es id = Some j ->
  es !! j = Some e ->
  reconciled es local e = e.
Proof.
  intros Hj He.
  destruct (find_entity_index_Some _ _ _ Hj) as (e' & He' & Hid).
  assert (e' = e) by congruence. subst e'.
  unfold reconciled, correction_for.
  destruct (negb (owner_id e =? local)); [reflexivity|].
  rewrite Hid, Hj. simpl. rewrite He. simpl.
  destruct (state_mismatch e e); [apply snap_to_self | reflexivity].
Qed.

Lemma table_after_ids es local k :
  map entity_id (table_after es local k) = map entity_id es.
Proof.
  unfold table_after. rewrite map_app, map_map.
  rewrite (map_ext _ entity_id (reconciled_entity_id es local)).
  rewrite <- map_app, take_drop. reflexivity.
Qed.

Lemma table_after_lookup es local k n :
  table_after es local k !! n =
    if decide (n < k)%nat then reconciled es local <$> es !! n else es !! n.
Proof.
  unfold table_after.
  destruct (decide (n < k)%nat) as [Hlt|Hge].
  - destruct (decide (n < length es)%nat) as [Hn|Hn].
    + rewrite lookup_app_l by (rewrite length_map, length_take; lia).
      change (map (reconciled es local) (take k es))
        with (reconciled es local <$> take k es).
      rewrite list_lookup_fmap, lookup_take_lt by exact Hlt. reflexivity.
    + rewrite (lookup_ge_None_2 es n) by lia. simpl.
      apply lookup_ge_None_2.
      rewrite length_app, length_map, length_take, length_drop. lia.
  - destruct (decide (k <= length es)%nat) as [Hk|Hk].
    + rewrite lookup_app_r by (rewrite length_map, length_take; lia).
      rewrite length_map, length_take, lookup_drop.
      f_equal. lia.
    + rewrite take_ge, drop_ge, app_nil_r by lia.
      rewrite (lookup_ge_None_2 es n) by lia.
      apply lookup_ge_None_2. rewrite length_map. lia.
Qed.

Lemma table_after_first es local k id j e :
  find_entity_index es id = Some j ->
  es !! j = Some e ->
  table_after es local k !! j = Some e.
Proof.
  intros Hj He. rewrite table_after_lookup, He.
  destruct (decide (j < k)%nat); [|reflexivity].
  simpl. rewrite (reconciled_first _ _ _ _ _ Hj He). reflexivity.
Qed.

Lemma table_after_S es local k e :
  es !! k = Some e ->
  <[k := reconciled es local e]> (table_after es local k) =
    table_after es local (S k).
Proof.
  intros He. apply list_eq. intros n.
  pose proof (lookup_lt_Some _ _ _ He) as Hk.
  rewrite list_lookup_insert, !table_after_lookup.
  assert (Hlen : length (table_after es local k) = length es).
  { unfold table_after.
    rewrite length_app, length_map, length_take, length_drop. lia. }
  rewrite Hlen.
  destruct (decide (k = n)) as [<-|Hne].
  - destruct (decide (k = k ∧ (k < length es)%nat)) as [_|Hn]; [|lia].
    destruct (decide (k < S k)%nat); [|lia]. rewrite He. reflexivity.
  - destruct (decide (k = n ∧ (k < length es)%nat)) as [[? _]|_]; [lia|].
    destruct (decide (n < k)%nat), (decide (n < S k)%nat);
      try lia; reflexivity.
Qed.

Lemma table_after_length es local k :
  length (table_after es local k) = length es.
Proof.
  unfold table_after.
  rewrite length_app, length_map, length_take, length_drop. lia.
Qed.

(** One turn of the loop, in terms of the table before the loop. *)
Lemma reconcile_entity_cases m out k e :
  entities m !! k = Some e ->
  reconcile_entity
    (set_entities m (table_after (entities m) (local_player_id m) k), out) k =
  match correction_for (entities m) (local_player_id m) e with
  | Some se =>
      (set_entities m
         (<[k := snap_to e se]>
            (table_after (entities m) (local_player_id m) k)),
       out ++ [PrintStateMismatch (entity_id e)])
  | None =>
      (set_entities m (table_after (entities m) (local_player_id m) k), out)
  end.
Proof.
  intros He.
  set (es := entities m). set (local := local_player_id m).
  assert (Hk : table_after es local k !! k = Some e).
  { rewrite table_after_lookup. destruct (decide (k < k)%nat); [lia|exact He]. }
  unfold reconcile_entity, find_server_entity.
  change (entities (set_entities m (table_after es local k)))
    with (table_after es local k).
  change (local_player_id (set_entities m (table_after es local k)))
    with local.
  rewrite Hk.
  rewrite (find_entity_index_ids _ es (entity_id e) (table_after_ids es local k)).
  unfold correction_for.
  destruct (negb (owner_id e =? local)); [reflexivity|].
  destruct (find_entity_index es (entity_id e)) as [j|] eqn:Ej;
    [|reflexivity].
  destruct (es !! j) as [se|] eqn:Ese.
  - rewrite (table_after_first es local k _ j se Ej Ese).
    cbn [mbind option_bind]. rewrite Ese. cbn [mbind option_bind].
    destruct (state_mismatch e se); reflexivity.
  - rewrite (lookup_ge_None_2 (table_after es local k) j)
      by (apply lookup_ge_None in Ese; rewrite table_after_length; lia).
    cbn [mbind option_bind]. rewrite Ese. reflexivity.
Qed.

(** One turn of the loop brings the table from [table_after .. k] to
    [table_after .. (S k)] and prints the lines of entity [k]. *)
Lemma reconcile_entity_step m out k e :
  entities m !! k = Some e ->
  reconcile_entity
    (set_entities m (table_after (entities m) (local_player_id m) k), out) k =
  (set_entities m (table_after (entities m) (local_player_id m) (S k)),
   out ++ reconcile_output (entities m) (local_player_id m) e).
Proof.
  intros He. rewrite (reconcile_entity_cases m out k e He).
  rewrite <- (table_after_S _ _ k e He).
  unfold reconciled, reconcile_output.
  destruct (correction_for (entities m) (local_player_id m) e) as [se|].
  - reflexivity.
  - rewrite app_nil_r. f_equal. f_equal. symmetry.
    apply list_insert_id. rewrite table_after_lookup.
    destruct (decide (k < k)%nat); [lia|exact He].
Qed.

Lemma set_entities_self m : set_entities m (entities m) = m.
Proof. destruct m; reflexivity. Qed.

Lemma reconcile_loop_prefix m : forall k,
  (k <= length (entities m))%nat ->
  foldl reconcile_entity (m, []) (seq 0 k) =
  (set_entities m (table_after (entities m) (local_player_id m) k),
   flat_map (reconcile_output (entities m) (local_player_id m))
     (take k (entities m))).
Proof.
  induction k as [|k IH]; intros Hk.
  - simpl. unfold table_after. rewrite take_0, drop_0. simpl.
    rewrite set_entities_self. reflexivity.
  - rewrite seq_S, foldl_app, IH by lia.
    change [(0 + k)%nat] with [k]. cbn [foldl].
    destruct (lookup_lt_is_Some_2 (entities m) k) as [e He]; [lia|].
    rewrite (reconcile_entity_step m _ k e He).
    rewrite (take_S_r _ _ _ He), flat_map_app. cbn [flat_map].
    rewrite app_nil_r. reflexivity.
Qed.

(** On a client the loop maps [reconciled] over the table and prints the
    lines of the entities in table order. *)
Lemma network_reconcile_state_spec m :
  is_server m = false ->
  network_reconcile_state m =
  (set_entities m (map (reconciled (entities m) (local_player_id m)) (entities m)),
   flat_map (reconcile_output (entities m) (local_player_id m)) (entities m)).
Proof.
  intros Hs. unfold network_reconcile_state, entity_count. rewrite Hs.
  rewrite reconcile_loop_prefix by lia.
  unfold table_after. rewrite take_ge, drop_ge, app_nil_r by lia.
  reflexivity.
Qed.

Lemma correction_for_owned es local entity j server_entity :
  owner_id entity = local ->
  find_entity_index es (entity_id entity) = Some j ->
  es !! j = Some server_entity ->
  correction_for es local entity =
    if state_mismatch entity server_entity then Some server_entity else None.
Proof.
  intros Ho Hj Hs. unfold correction_for.
  rewrite Ho, Z.eqb_refl, Hj. cbn [negb mbind option_bind].
  rewrite Hs. reflexivity.
Qed.

Lemma reconciled_table_ids es local :
  map entity_id (map (reconciled es local) es) = map entity_id es.
Proof.
  rewrite map_map. apply map_ext. apply reconciled_entity_id.
Qed.

Lemma reconciled_table_lookup es local n :
  map (reconciled es local) es !! n = reconciled es local <$> es !! n.
Proof. apply (list_lookup_fmap (reconciled es local)). Qed.

Lemma flat_map_middle {A B} (f : A -> list B) (l : list A) i x :
  l !! i = Some x ->
  flat_map f l = flat_map f (take i l) ++ f x ++ flat_map f (drop (S i) l).
Proof.
  intros H. rewrite <- (take_drop_middle _ _ _ H) at 1.
  rewrite flat_map_app. reflexivity.
Qed.

(** C1: an entity of the local peer whose predicted pose has diverged from
    the pose the server holds is not corrected.  The manager holds no server
    state: [find_server_entity] searches the client's own table, so where
    each id has one slot the entity is compared with itself.  Entity 7 of
    [diverged_client] is predicted at x = 1 while the server holds it at the
    origin, further away than the bound of 0.1; the search returns the
    entity's own slot, the call prints no correction and the entity stays
    where it was predicted. *)
Theorem divergence_not_corrected :
  let m := diverged_client in
  let predicted := sample_entity 1 in
  is_server m = false /\
  entities m = [predicted] /\
  owner_id predicted = local_player_id m /\
  entity_id authoritative_entity = entity_id predicted /\
  state_mismatch predicted authoritative_entity = true /\
  F32.gtb
    (vector_distance (position predicted) (position authoritative_entity))
    F32.lit_0_1 = true /\
  find_server_entity m (entity_id predicted) = Some 0%nat /\
  entities m !! 0%nat = Some predicted /\
  network_reconcile_state m = (m, []) /\
  snd (network_reconcile_state m) <> [PrintStateMismatch (entity_id predicted)] /\
  entities (fst (network_reconcile_state m)) = [predicted] /\
  entities (fst (network_reconcile_state m)) <>
    [snap_to predicted authoritative_entity] /\
  position predicted <> position authoritative_entity.
Proof. vm_compute. repeat split; discriminate. Qed.

(** Where a table does hold two slots of one id, the first is what the search
    returns for both: on a client, an entity of the local peer whose position
    is further than 0.1 or whose rotation is further than 0.01 from the
    entity [find_server_entity] returns for its id gets exactly one line of
    correction in its turn of the loop, and after the call it has the
    position and the rotation of that entity, which is itself unchanged. *)
Lemma divergence_corrected_once :
  forall (m : NetworkManager) (i j : nat)
         (entity server_entity : NetworkEntity),
    is_server m = false ->
    entities m !! i = Some entity ->
    owner_id entity = local_player_id m ->
    find_server_entity m (entity_id entity) = Some j ->
    entities m !! j = Some server_entity ->
    state_mismatch entity server_entity = true ->
    let r := network_reconcile_state m in
    let turn := reconcile_output (entities m) (local_player_id m) in
    snd r = flat_map turn (take i (entities m))
            ++ [PrintStateMismatch (entity_id entity)]
            ++ flat_map turn (drop (S i) (entities m)) /\
    find_server_entity (fst r) (entity_id entity) = Some j /\
    entities (fst r) !! j = Some server_entity /\
    exists entity',
      entities (fst r) !! i = Some entity' /\
      position entity' = position server_entity /\
      rotation entity' = rotation server_entity /\
      entity' = snap_to entity server_entity.
Proof.
  intros m i j entity server_entity Hs Hi Ho Hj Hse Hmis r turn.
  subst r turn. rewrite (network_reconcile_state_spec m Hs). cbn [fst snd].
  unfold find_server_entity in *.
  change (entities (set_entities m ?es)) with es.
  pose proof (correction_for_owned _ _ _ _ _ Ho Hj Hse) as Hc.
  rewrite Hmis in Hc.
  split.
  { rewrite (flat_map_middle _ _ _ _ Hi).
    unfold reconcile_output at 2. rewrite Hc. reflexivity. }
  split.
  { rewrite (find_entity_index_ids _ (entities m) _ (reconciled_table_ids _ _)).
    exact Hj. }
  split.
  { rewrite reconciled_table_lookup, Hse. simpl.
    rewrite (reconciled_first _ _ _ _ _ Hj Hse). reflexivity. }
  exists (snap_to entity server_entity).
  split; [|repeat split].
  rewrite reconciled_table_lookup, Hi. simpl.
  unfold reconciled. rewrite Hc. reflexivity.
Qed.

Lemma divergence_corrected_once_witness :
  snd (network_reconcile_state sample_client) = [PrintStateMismatch 7] /\
  entities (fst (network_reconcile_state sample_client)) !! 0%nat =
    Some (sample_entity 0) /\
  exists entity',
    entities (fst (network_reconcile_state sample_client)) !! 1%nat =
      Some entity' /\
    position entity' = position (sample_entity 0).
Proof.
  destruct (divergence_corrected_once sample_client 1 0
              (sample_entity 1) (sample_entity 0)
              eq_refl eq_refl eq_refl eq_refl eq_refl eq_refl)
    as (Hout & _ & Hj & e' & He' & Hp & _).
  split; [rewrite Hout; vm_compute; reflexivity|].
  split; [exact Hj|].
  exists e'. split; [exact He' | exact Hp].
Defined.

(** C9: on a client, an entity of the local peer that is within both
    bounds of the entity [find_server_entity] returns for its id gets no
    line of correction in its turn of the loop and is left as it is. *)
Theorem agreement_not_corrected :
  forall (m : NetworkManager) (i j : nat)
         (entity server_entity : NetworkEntity),
    is_server m = false ->
    entities m !! i = Some entity ->
    owner_id entity = local_player_id m ->
    find_server_entity m (entity_id entity) = Some j ->
    entities m !! j = Some server_entity ->
    state_mismatch entity server_entity = false ->
    let r := network_reconcile_state m in
    let turn := reconcile_output (entities m) (local_player_id m) in
    snd r = flat_map turn (take i (entities m))
            ++ [] ++ flat_map turn (drop (S i) (entities m)) /\
    entities (fst r) !! i = Some entity.
Proof.
  intros m i j entity server_entity Hs Hi Ho Hj Hse Hmis r turn.
  subst r turn. rewrite (network_reconcile_state_spec m Hs). cbn [fst snd].
  unfold find_server_entity in *.
  change (entities (set_entities m ?es)) with es.
  pose proof (correction_for_owned _ _ _ _ _ Ho Hj Hse) as Hc.
  rewrite Hmis in Hc.
  split.
  - rewrite (flat_map_middle _ _ _ _ Hi).
    unfold reconcile_output at 2. rewrite Hc. reflexivity.
  - rewrite reconciled_table_lookup, Hi. simpl.
    unfold reconciled. rewrite Hc. reflexivity.
Qed.

Lemma agreement_not_corrected_witness :
  entities (fst (network_reconcile_state sample_client)) !! 2%nat =
    Some (sample_entity 0).
Proof.
  exact (proj2 (agreement_not_corrected sample_client 2 0
                  (sample_entity 0) (sample_entity 0)
                  eq_refl eq_refl eq_refl eq_refl eq_refl eq_refl)).
Defined.

(** When every entity of the local peer agrees with the entity the search
    returns for it, the call changes nothing and prints nothing. *)
Lemma reconcile_agreement_noop m :
  is_server m = false ->
  (forall e, In e (entities m) ->
     correction_for (entities m) (local_player_id m) e = None) ->
  network_reconcile_state m = (m, []).
Proof.
  intros Hs Hall. rewrite (network_reconcile_state_spec m Hs).
  assert (Hmap : forall es',
            (forall e, In e es' ->
               correction_for (entities m) (local_player_id m) e = None) ->
            map (reconciled (entities m) (local_player_id m)) es' = es' /\
            flat_map (reconcile_output (entities m) (local_player_id m)) es'
              = []).
  { induction es' as [|e rest IH]; intros H; simpl; [split; reflexivity|].
    destruct IH as [IH1 IH2]; [intros e' He'; apply H; right; exact He'|].
    unfold reconciled at 1, reconcile_output at 1.
    rewrite (H e (or_introl eq_refl)). rewrite IH1, IH2.
    split; reflexivity. }
  destruct (Hmap (entities m) Hall) as [-> ->].
  rewrite set_entities_self. reflexivity.
Qed.

(** A table without a second slot for any id is never corrected: the
    search returns every entity itself, whatever the server has sent. *)
Lemma find_entity_index_self es : forall i e,
  NoDup (map entity_id es) ->
  es !! i = Some e ->
  find_entity_index es (entity_id e) = Some i.
Proof.
  induction es as [|e0 rest IH]; intros i e Hnd Hi; [discriminate|].
  simpl in Hnd. apply NoDup_cons in Hnd as [Hnotin Hnd].
  destruct i as [|i]; simpl in *.
  - injection Hi as ->. rewrite Z.eqb_refl. reflexivity.
  - destruct (Z.eqb_spec (entity_id e0) (entity_id e)) as [E|_].
    + exfalso. apply Hnotin. rewrite E.
      apply list_elem_of_fmap. exists e.
      split; [reflexivity|]. apply (list_elem_of_lookup_2 _ i). exact Hi.
    + rewrite (IH i e Hnd Hi). reflexivity.
Qed.

(** An entity is never further than the bounds from itself: the
    differences are zero, or NaN, which compares false. *)
Lemma sub_self_zero_or_nan x : zero_or_nan (F32.sub x x) = true.
Proof.
  destruct x as [[|]|[|]| |s m e]; try reflexivity.
  unfold F32.sub, SFsub. rewrite Z.sub_diag. reflexivity.
Qed.

Lemma mul_zero_or_nan x y :
  zero_or_nan x = true -> zero_or_nan y = true ->
  zero_or_nan (F32.mul x y) = true.
Proof. destruct x, y; simpl; intros; try discriminate; reflexivity. Qed.

Lemma add_zero_or_nan x y :
  zero_or_nan x = true -> zero_or_nan y = true ->
  zero_or_nan (F32.add x y) = true.
Proof.
  destruct x as [[|]| | |], y as [[|]| | |]; simpl; intros;
    try discriminate; reflexivity.
Qed.

Lemma sqrtf_zero_or_nan x :
  zero_or_nan x = true -> zero_or_nan (F32.sqrtf x) = true.
Proof. destruct x; simpl; intros; try discriminate; reflexivity. Qed.

Lemma vector_distance_self a : zero_or_nan (vector_distance a a) = true.
Proof.
  unfold vector_distance.
  apply sqrtf_zero_or_nan.
  repeat apply add_zero_or_nan; apply mul_zero_or_nan;
    apply sub_self_zero_or_nan.
Qed.

Lemma state_mismatch_self e : state_mismatch e e = false.
Proof.
  unfold state_mismatch.
  pose proof (vector_distance_self (position e)) as Hp.
  pose proof (vector_distance_self (rotation e)) as Hr.
  destruct (vector_distance (position e) (position e));
    destruct (vector_distance (rotation e) (rotation e));
    try discriminate; reflexivity.
Qed.

(** So on a table with one slot for each id the call is idle. *)
Lemma reconcile_unique_ids_idle m :
  is_server m = false ->
  NoDup (map entity_id (entities m)) ->
  network_reconcile_state m = (m, []).
Proof.
  intros Hs Hnd. apply reconcile_agreement_noop; [exact Hs|].
  intros e He. apply list_elem_of_In in He.
  apply list_elem_of_lookup in He as [i Hi].
  unfold correction_for.
  destruct (negb (owner_id e =? local_player_id m)); [reflexivity|].
  rewrite (find_entity_index_self _ _ _ Hnd Hi). cbn [mbind option_bind].
  rewrite Hi. cbn [mbind option_bind].
  rewrite state_mismatch_self. reflexivity.
Qed.

(** ** Reliable retransmission *)

Lemma registry_disconnect_idem ps peer :
  registry_disconnect (registry_disconnect ps peer) peer =
    registry_disconnect ps peer.
Proof.
  unfold registry_disconnect. rewrite map_map. apply map_ext.
  intros p. destruct (player_id p =? peer) eqn:E; simpl; rewrite E; reflexivity.
Qed.

Lemma registry_react_unreachable ps peer evs :
  In PeerUnreachable evs ->
  registry_react ps peer evs = registry_disconnect ps peer.
Proof.
  revert ps. induction evs as [|ev rest IH]; intros ps Hin; [destruct Hin|].
  destruct ev as [s|]; simpl.
  - destruct Hin as [Hin|Hin]; [discriminate|]. apply IH. exact Hin.
  - clear Hin. clear IH.
    revert ps. induction rest as [|ev rest IH]; intros ps; simpl;
      [reflexivity|].
    destruct ev; [apply IH|].
    rewrite registry_disconnect_idem. apply IH.
Qed.

Lemma registry_disconnect_disconnected ps peer pl :
  In pl (registry_disconnect ps peer) ->
  player_id pl = peer -> connected pl = false.
Proof.
  unfold registry_disconnect. intros Hin Hid.
  apply in_map_iff in Hin as (p & Hp & _).
  destruct (Z.eqb_spec (player_id p) peer) as [E|E].
  - subst pl. reflexivity.
  - subst pl. contradiction.
Qed.

(** Disconnecting on a keepalive timeout is the same reaction. *)
Lemma registry_keepalive_timeout_disconnects ps peer now timeout :
  (forall p, In p ps -> player_id p = peer ->
             timeout < now - last_packet_time p) ->
  registry_keepalive_timeout ps peer now timeout = registry_disconnect ps peer.
Proof.
  intros H. unfold registry_keepalive_timeout, registry_disconnect.
  apply map_ext_in. intros p Hp.
  destruct (Z.eqb_spec (player_id p) peer) as [E|_]; [|reflexivity].
  simpl. destruct (Z.ltb_spec timeout (now - last_packet_time p)) as [_|Hge];
    [reflexivity|]. specialize (H p Hp E). lia.
Qed.

Lemma retry_events_in_queue cfg now p : forall queue ev,
  In p queue ->
  In ev (snd (retry_reliable_packet cfg now p)) ->
  In ev (snd (network_send_reliable_retries cfg now queue)).
Proof.
  induction queue as [|q rest IH]; intros ev Hin Hev; [destruct Hin|].
  simpl.
  destruct (retry_reliable_packet cfg now q) as [q' evq] eqn:Eq.
  destruct (network_send_reliable_retries cfg now rest) as [rest' evs] eqn:Er.
  simpl. apply in_or_app.
  destruct Hin as [->|Hin].
  - left. rewrite Eq in Hev. exact Hev.
  - right. apply (IH ev Hin Hev).
Qed.

(** A record that has used up its retries is never sent again, however
    many ticks follow. *)
Lemma retry_lifetime_exhausted cfg ticks : forall p sequence,
  rp_acked p = false ->
  max_retries cfg <= rp_retry_count p ->
  ~ In (Retransmit sequence) (retry_lifetime cfg ticks p).
Proof.
  induction ticks as [|now later IH]; intros p sequence Hack Hmax Hin;
    [exact Hin|].
  simpl in Hin. unfold retry_reliable_packet in Hin. rewrite Hack in Hin.
  destruct (now - rp_send_time p <? retry_timeout cfg).
  - simpl in Hin. exact (IH p sequence Hack Hmax Hin).
  - destruct (Z.ltb_spec (rp_retry_count p) (max_retries cfg)) as [Hlt|_];
      [lia|].
    destruct Hin as [Hin|Hin]; [discriminate | exact Hin].
Qed.

(** C7: a reliable record that is still unacknowledged when its retry
    count has reached the maximum is not retransmitted in any later tick;
    at the tick that finds its timeout passed the channel signals
    peer-unreachable and the registry disconnects the peer, as it does on a
    keepalive timeout. *)
Theorem retry_budget_exhausted :
  forall (cfg : RetryConfig) (now peer : Z) (queue : list ReliablePacket)
         (ps : list NetworkPlayer) (p : ReliablePacket),
    In p queue ->
    rp_acked p = false ->
    max_retries cfg <= rp_retry_count p ->
    retry_timeout cfg <= now - rp_send_time p ->
    let r := reliable_tick cfg now peer (queue, ps) in
    (forall ticks sequence,
       ~ In (Retransmit sequence) (retry_lifetime cfg ticks p)) /\
    retry_reliable_packet cfg now p = (None, [PeerUnreachable]) /\
    In PeerUnreachable (snd r) /\
    snd (fst r) = registry_disconnect ps peer /\
    (forall pl, In pl (snd (fst r)) -> player_id pl = peer ->
                connected pl = false) /\
    (forall at_time timeout,
       (forall pl, In pl ps -> player_id pl = peer ->
                   timeout < at_time - last_packet_time pl) ->
       snd (fst r) = registry_keepalive_timeout ps peer at_time timeout).
Proof.
  intros cfg now peer queue ps p Hin Hack Hmax Hto r.
  assert (Hp : retry_reliable_packet cfg now p = (None, [PeerUnreachable])).
  { unfold retry_reliable_packet. rewrite Hack.
    destruct (Z.ltb_spec (now - rp_send_time p) (retry_timeout cfg)); [lia|].
    destruct (Z.ltb_spec (rp_retry_count p) (max_retries cfg)); [lia|].
    reflexivity. }
  assert (Hev : In PeerUnreachable
                  (snd (network_send_reliable_retries cfg now queue))).
  { apply (retry_events_in_queue cfg now p); [exact Hin|].
    rewrite Hp. left. reflexivity. }
  subst r. unfold reliable_tick.
  destruct (network_send_reliable_retries cfg now queue) as [queue' evs].
  cbn [fst snd] in *.
  pose proof (registry_react_unreachable ps peer evs Hev) as Hreact.
  split; [intros ticks sequence;
          exact (retry_lifetime_exhausted cfg ticks p sequence Hack Hmax)|].
  split; [exact Hp|].
  split; [exact Hev|].
  split; [exact Hreact|].
  split.
  - intros pl Hpl Hid. rewrite Hreact in Hpl.
    exact (registry_disconnect_disconnected ps peer pl Hpl Hid).
  - intros at_time timeout Hall. rewrite Hreact. symmetry.
    apply registry_keepalive_timeout_disconnects. exact Hall.
Qed.

Lemma retry_budget_exhausted_witness :
  let r := reliable_tick sample_config 102 5 ([sample_record], [sample_peer]) in
  In PeerUnreachable (snd r) /\
  snd (fst r) = [set_connected sample_peer false].
Proof.
  intros r.
  assert (H1 : max_retries sample_config <= rp_retry_count sample_record)
    by (vm_compute; discriminate).
  assert (H2 : retry_timeout sample_config <= 102 - rp_send_time sample_record)
    by (vm_compute; discriminate).
  destruct (retry_budget_exhausted sample_config 102 5 [sample_record]
              [sample_peer] sample_record (or_introl eq_refl) eq_refl H1 H2)
    as (_ & _ & Hev & Hps & _).
  split; [exact Hev | exact Hps].
Defined.

(** Over its whole life a record is retransmitted no more often than its
    retries allow. *)
Lemma retry_lifetime_bounded cfg ticks : forall p,
  0 <= rp_retry_count p <= max_retries cfg ->
  max_retries cfg <= 255 ->
  Z.of_nat (length (List.filter is_retransmit (retry_lifetime cfg ticks p)))
    <= max_retries cfg - rp_retry_count p.
Proof.
  induction ticks as [|now later IH]; intros p Hc Hmax;
    cbn [retry_lifetime]; [simpl; lia|].
  unfold retry_reliable_packet.
  destruct (rp_acked p); [simpl; lia|].
  destruct (now - rp_send_time p <? retry_timeout cfg).
  - cbn [app]. apply IH; assumption.
  - destruct (Z.ltb_spec (rp_retry_count p) (max_retries cfg)) as [Hlt|Hge].
    + assert (Hu : uint8 (rp_retry_count p + 1) = rp_retry_count p + 1).
      { apply Z.mod_small. change (2 ^ 8) with 256. lia. }
      cbn [app List.filter is_retransmit length]. rewrite Hu.
      specialize (IH (set_retry p now (rp_retry_count p + 1))).
      cbn [rp_retry_count set_retry] in IH.
      specialize (IH ltac:(lia) Hmax).
      rewrite Nat2Z.inj_succ. lia.
    + simpl. lia.
Qed.

(** * Further properties *)

(** ** Floating point: signs and NaN *)

Lemma shr_1_nonneg mrs : 0 <= shr_m mrs -> 0 <= shr_m (shr_1 mrs).
Proof.
  destruct mrs as [m r s]. simpl. intros H.
  destruct m as [|[p|p|]|[p|p|]]; simpl; lia.
Qed.

Lemma iter_pos_shr_1_nonneg p : forall mrs,
  0 <= shr_m mrs -> 0 <= shr_m (SpecFloat.iter_pos shr_1 p mrs).
Proof.
  induction p as [p IH|p IH|]; intros mrs H; simpl.
  - apply IH, IH, shr_1_nonneg, H.
  - apply IH, IH, H.
  - apply shr_1_nonneg, H.
Qed.

Lemma shr_fexp_nonneg prec emax m e l :
  0 <= m -> 0 <= shr_m (fst (shr_fexp prec emax m e l)).
Proof.
  intros H. unfold shr_fexp, shr.
  assert (H0 : 0 <= shr_m (shr_record_of_loc m l)).
  { destruct l as [|[| |]]; exact H. }
  destruct (fexp prec emax (Zdigits2 m + e) - e) as [|p|p]; simpl;
    [exact H0 | apply iter_pos_shr_1_nonneg, H0 | exact H0].
Qed.

Lemma round_nearest_even_nonneg m l : 0 <= m -> 0 <= round_nearest_even m l.
Proof.
  intros H. unfold round_nearest_even.
  destruct l as [|[| |]]; try lia. destruct (Z.even m); lia.
Qed.

(** Rounding a mantissa that is not negative never gives a NaN and keeps
    the sign it is given. *)
Lemma binary_round_aux_sign prec emax sx mx ex lx :
  0 <= mx ->
  match binary_round_aux prec emax sx mx ex lx with
  | S754_zero s | S754_infinity s | S754_finite s _ _ => s = sx
  | S754_nan => False
  end.
Proof.
  intros H. unfold binary_round_aux.
  pose proof (shr_fexp_nonneg prec emax mx ex lx H) as H1.
  destruct (shr_fexp prec emax mx ex lx) as [mrs' e'].
  cbn [fst] in H1.
  pose proof (shr_fexp_nonneg prec emax
                (round_nearest_even (shr_m mrs') (loc_of_shr_record mrs'))
                e' loc_Exact (round_nearest_even_nonneg _ _ H1)) as H2.
  destruct (shr_fexp prec emax _ e' loc_Exact) as [mrs'' e''].
  cbn [fst] in H2.
  destruct (shr_m mrs'') as [|p|p]; [reflexivity | | lia].
  destruct (e'' <=? emax - prec); reflexivity.
Qed.

Lemma binary_round_aux_not_negative prec emax mx ex lx :
  0 <= mx -> not_negative (binary_round_aux prec emax false mx ex lx) = true.
Proof.
  intros H. pose proof (binary_round_aux_sign prec emax false mx ex lx H) as Hs.
  destruct (binary_round_aux prec emax false mx ex lx) as [s|s| |s m e];
    try contradiction; subst; reflexivity.
Qed.

Lemma binary_normalize_not_negative prec emax m e :
  0 <= m -> not_negative (binary_normalize prec emax m e false) = true.
Proof.
  intros H. destruct m as [|p|p]; [reflexivity | | lia].
  unfold binary_normalize, binary_round.
  destruct (shl_align p e _) as [mz ez].
  apply binary_round_aux_not_negative. lia.
Qed.

(** [f] holds for [p] and for every number that extends the binary digits
    of [p] by at most [d] more. *)
Lemma all_extensions_size f q : forall d,
  (Pos.size_nat q <= S d)%nat ->
  all_extensions d f 1 = true ->
  all_extensions (S d - Pos.size_nat q) f q = true.
Proof.
  induction q as [q IH|q IH|]; intros d Hs Hall; cbn [Pos.size_nat] in *.
  - specialize (IH d ltac:(lia) Hall).
    replace (S d - Pos.size_nat q)%nat with (S (S d - S (Pos.size_nat q)))
      in IH by lia.
    cbn [all_extensions] in IH.
    apply andb_true_iff in IH as [_ IH].
    apply andb_true_iff in IH as [_ IH]. exact IH.
  - specialize (IH d ltac:(lia) Hall).
    replace (S d - Pos.size_nat q)%nat with (S (S d - S (Pos.size_nat q)))
      in IH by lia.
    cbn [all_extensions] in IH.
    apply andb_true_iff in IH as [_ IH].
    apply andb_true_iff in IH as [IH _]. exact IH.
  - replace (S d - 1)%nat with d by lia. exact Hall.
Qed.

Lemma size_nat_bound q : forall k : nat,
  Z.pos q < 2 ^ Z.of_nat k -> (Pos.size_nat q <= k)%nat.
Proof.
  induction q as [q IH|q IH|]; intros k H; cbn [Pos.size_nat].
  - destruct k as [|k]; [simpl in H; lia|].
    rewrite Nat2Z.inj_succ, Z.pow_succ_r in H by lia.
    specialize (IH k ltac:(lia)). lia.
  - destruct k as [|k]; [simpl in H; lia|].
    rewrite Nat2Z.inj_succ, Z.pow_succ_r in H by lia.
    specialize (IH k ltac:(lia)). lia.
  - destruct k as [|k]; [simpl in H; lia | lia].
Qed.

(** Every count and every sequence number from 1 to 65535 is a positive
    [float]; checked value by value. *)
Lemma of_Z_positive_finite n :
  1 <= n <= 65535 -> is_positive_finite (F32.of_Z n) = true.
Proof.
  intros H. destruct n as [|q|q]; try lia.
  assert (Hall : all_extensions 15
                   (fun p => is_positive_finite (F32.of_Z (Z.pos p))) 1 = true)
    by (vm_compute; reflexivity).
  assert (Hs : (Pos.size_nat q <= 16)%nat).
  { apply size_nat_bound. change (2 ^ Z.of_nat 16) with 65536. lia. }
  pose proof (all_extensions_size _ q 15 Hs Hall) as Hq.
  destruct (16 - Pos.size_nat q)%nat; cbn [all_extensions] in Hq.
  - apply andb_true_iff in Hq as [Hq _]. exact Hq.
  - apply andb_true_iff in Hq as [Hq _]. exact Hq.
Qed.

Lemma of_float_not_negative x :
  not_negative x = true -> not_negative (F64.of_float x) = true.
Proof.
  destruct x as [s|[|]| |[|] m e]; intros H; try discriminate;
    try reflexivity.
  apply (binary_normalize_not_negative _ _ (Z.pos m)). lia.
Qed.

Lemma of_double_not_negative x :
  not_negative x = true -> not_negative (F32.of_double x) = true.
Proof.
  destruct x as [s|[|]| |[|] m e]; intros H; try discriminate;
    try reflexivity.
  apply (binary_normalize_not_negative _ _ (Z.pos m)). lia.
Qed.

Lemma mul_positive_not_negative a y :
  is_positive_finite a = true -> not_negative y = true ->
  not_negative (F64.mul a y) = true.
Proof.
  destruct a as [| | |[|] ma ea]; try discriminate. intros _.
  destruct y as [s|[|]| |[|] m e]; intros H; try discriminate;
    try reflexivity.
  unfold F64.mul, SFmul. apply binary_round_aux_not_negative. lia.
Qed.

Lemma add_not_negative x y :
  not_negative x = true -> not_negative y = true ->
  not_negative (F64.add x y) = true.
Proof.
  destruct x as [[|]|[|]| |[|] mx ex]; intros Hx; try discriminate;
    destruct y as [[|]|[|]| |[|] my ey]; intros Hy; try discriminate;
    try reflexivity.
  unfold F64.add, SFadd. apply binary_normalize_not_negative.
  unfold cond_Zopp. lia.
Qed.

(** A count of lost packets over a sequence number: a positive number over
    zero or over a positive number. *)
Lemma div_positive_not_negative a b :
  is_positive_finite a = true ->
  (b = S754_zero false \/ is_positive_finite b = true) ->
  not_negative (F32.div a b) = true.
Proof.
  destruct a as [| | |[|] ma ea]; try discriminate. intros _ [->|Hb].
  - reflexivity.
  - destruct b as [| | |[|] mb eb]; try discriminate.
    unfold F32.div, SFdiv, SFdiv_core_binary.
    set (m' := match _ - _ - _ with
               | 0 => Z.pos ma
               | Z.pos _ => Z.shiftl (Z.pos ma) _
               | Z.neg _ => 0
               end).
    assert (Hm : 0 <= m').
    { subst m'. destruct (_ - _ - _); [lia | apply Z.shiftl_nonneg; lia | lia]. }
    pose proof (Z_div_mod m' (Z.pos mb) ltac:(lia)) as Hdiv.
    destruct (Z.div_eucl m' (Z.pos mb)) as [q r].
    apply binary_round_aux_not_negative. nia.
Qed.

Lemma of_Z_sequence n :
  0 <= n <= 65535 ->
  F32.of_Z n = S754_zero false \/ is_positive_finite (F32.of_Z n) = true.
Proof.
  intros H. destruct (Z.eq_dec n 0) as [->|Hn]; [left; reflexivity|].
  right. apply of_Z_positive_finite. lia.
Qed.

Lemma loss_rate_update_not_negative rate lost sequence :
  not_negative rate = true ->
  1 <= lost <= 65535 -> 0 <= sequence <= 65535 ->
  not_negative (loss_rate_update rate lost sequence) = true.
Proof.
  intros Hr Hl Hs. unfold loss_rate_update.
  apply of_double_not_negative, add_not_negative.
  - apply mul_positive_not_negative; [reflexivity|].
    apply of_float_not_negative, Hr.
  - apply mul_positive_not_negative; [reflexivity|].
    apply of_float_not_negative, div_positive_not_negative.
    + apply of_Z_positive_finite, Hl.
    + apply of_Z_sequence, Hs.
Qed.

Lemma lost_packets_positive expected sequence :
  0 <= expected < 65536 -> 0 <= sequence < 65536 ->
  sequence <> expected ->
  1 <= lost_packets expected sequence <= 65535.
Proof.
  intros He Hs Hne. unfold lost_packets, uint16, wrap.
  change (2 ^ 16) with 65536.
  pose proof (Z.mod_pos_bound (sequence - expected) 65536 ltac:(lia)) as Hb.
  destruct (Z.eq_dec ((sequence - expected) mod 65536) 0) as [E|E]; [|lia].
  exfalso. apply Z.mod_divide in E; [|lia]. destruct E as [k Hk].
  assert (k = 0) by nia. lia.
Qed.

Lemma update_sequence_tracking_rate m s :
  packet_loss_rate (update_sequence_tracking m s) =
    if s =? uint16 (last_received_sequence m + 1) then packet_loss_rate m
    else loss_rate_update (packet_loss_rate m)
           (lost_packets (uint16 (last_received_sequence m + 1)) s) s.
Proof.
  unfold update_sequence_tracking.
  destruct (s =? uint16 (last_received_sequence m + 1)); reflexivity.
Qed.

Lemma update_sequence_tracking_not_negative m s :
  0 <= s < 65536 ->
  not_negative (packet_loss_rate m) = true ->
  not_negative (packet_loss_rate (update_sequence_tracking m s)) = true.
Proof.
  intros Hs Hr. rewrite update_sequence_tracking_rate.
  destruct (Z.eqb_spec s (uint16 (last_received_sequence m + 1))) as [_|Hne];
    [exact Hr|].
  apply loss_rate_update_not_negative; [exact Hr | | lia].
  apply lost_packets_positive; [apply uint16_range | exact Hs | exact Hne].
Qed.

(** What [network_process_packet] returns is the manager it was given, or
    that manager after the sequence tracking of a sequence number of the
    header. *)
Lemma process_packet_cases m data from_addr :
  fst (network_process_packet m data from_addr) = m \/
  exists v t s,
    parse_header data = Some (v, t, s) /\ 0 <= s < 65536 /\
    fst (network_process_packet m data from_addr) =
      update_sequence_tracking m s.
Proof.
  unfold network_process_packet.
  destruct (Z.of_nat (length data) <? 4); [left; reflexivity|].
  destruct (parse_header data) as [[[v t] s]|] eqn:E; [|left; reflexivity].
  destruct (negb (v =? METAVERSE_PROTOCOL_VERSION)); [left; reflexivity|].
  right. exists v, t, s. split; [reflexivity|].
  split; [exact (parse_header_sequence_range _ _ _ _ E) | reflexivity].
Qed.

(** X1: the loss rate never turns into a NaN or a negative number: when it
    is zero, positive or plus infinity before a buffer is processed, it is
    so afterwards, whatever the buffer holds. *)
Theorem loss_rate_stays_not_negative :
  forall (m : NetworkManager) (data : list byte) (from_addr : sockaddr),
    not_negative (packet_loss_rate m) = true ->
    not_negative
      (packet_loss_rate (fst (network_process_packet m data from_addr))) = true.
Proof.
  intros m data from_addr Hr.
  destruct (process_packet_cases m data from_addr)
    as [->|(v & t & s & _ & Hs & ->)]; [exact Hr|].
  apply update_sequence_tracking_not_negative; assumption.
Qed.

Lemma loss_rate_stays_not_negative_witness :
  not_negative
    (packet_loss_rate
       (fst (network_process_packet (network_manager_create false 0)
               (make_packet 1 10 7 []) 0))) = true.
Proof.
  exact (loss_rate_stays_not_negative (network_manager_create false 0)
           (make_packet 1 10 7 []) 0 eq_refl).
Defined.

Lemma loss_rate_update_infinite rate lost :
  not_negative rate = true -> 1 <= lost <= 65535 ->
  loss_rate_update rate lost 0 = S754_infinity false.
Proof.
  intros Hr Hl. unfold loss_rate_update.
  pose proof (of_Z_positive_finite lost Hl) as Hp.
  destruct (F32.of_Z lost) as [| | |[|] ml el]; try discriminate.
  change (F32.div (S754_finite false ml el) (F32.of_Z 0))
    with (S754_infinity false).
  change (F64.mul F64.lit_0_1 (F64.of_float (S754_infinity false)))
    with (S754_infinity false).
  pose proof (mul_positive_not_negative F64.lit_0_9 (F64.of_float rate)
                eq_refl (of_float_not_negative rate Hr)) as Hm.
  destruct (F64.mul F64.lit_0_9 (F64.of_float rate)) as [s|[|]| |[|] mm em];
    try discriminate; reflexivity.
Qed.

(** X2: a packet with sequence number 0 that is not the expected one
    divides by zero in the update of the loss rate: the rate becomes plus
    infinity. *)
Theorem sequence_zero_makes_loss_rate_infinite :
  forall (m : NetworkManager) (data : list byte) (from_addr : sockaddr)
         (t : Z),
    parse_header data = Some (METAVERSE_PROTOCOL_VERSION, t, 0) ->
    uint16 (last_received_sequence m + 1) <> 0 ->
    not_negative (packet_loss_rate m) = true ->
    packet_loss_rate (fst (network_process_packet m data from_addr)) =
      S754_infinity false.
Proof.
  intros m data from_addr t H Hexp Hr.
  rewrite (process_packet_accepted _ _ _ _ _ H). cbn [fst].
  rewrite update_sequence_tracking_rate.
  destruct (Z.eqb_spec 0 (uint16 (last_received_sequence m + 1))) as [E|Hne];
    [congruence|].
  apply loss_rate_update_infinite; [exact Hr|].
  apply lost_packets_positive; [apply uint16_range | lia | exact Hne].
Qed.

Lemma sequence_zero_makes_loss_rate_infinite_witness :
  packet_loss_rate
    (fst (network_process_packet (network_manager_create false 0)
            (make_packet 1 2 0 []) 0)) = S754_infinity false.
Proof.
  assert (H : uint16 (last_received_sequence (network_manager_create false 0) + 1)
              <> 0) by (vm_compute; discriminate).
  exact (sequence_zero_makes_loss_rate_infinite (network_manager_create false 0)
           (make_packet 1 2 0 []) 0 2 eq_refl H eq_refl).
Defined.

Lemma loss_rate_update_absorbs lost sequence :
  1 <= lost <= 65535 -> 0 <= sequence <= 65535 ->
  loss_rate_update (S754_infinity false) lost sequence = S754_infinity false.
Proof.
  intros Hl Hs. unfold loss_rate_update.
  change (F64.mul F64.lit_0_9 (F64.of_float (S754_infinity false)))
    with (S754_infinity false).
  pose proof (mul_positive_not_negative F64.lit_0_1
                (F64.of_float (F32.div (F32.of_Z lost) (F32.of_Z sequence)))
                eq_refl
                (of_float_not_negative _
                   (div_positive_not_negative _ _
                      (of_Z_positive_finite lost Hl)
                      (of_Z_sequence sequence Hs)))) as Hm.
  destruct (F64.mul F64.lit_0_1 _) as [s|[|]| |[|] mm em];
    try discriminate; reflexivity.
Qed.

(** X3: once the loss rate is plus infinity it stays so: no later buffer
    brings it back. *)
Theorem infinite_loss_rate_stays :
  forall (m : NetworkManager) (data : list byte) (from_addr : sockaddr),
    packet_loss_rate m = S754_infinity false ->
    packet_loss_rate (fst (network_process_packet m data from_addr)) =
      S754_infinity false.
Proof.
  intros m data from_addr Hr.
  destruct (process_packet_cases m data from_addr)
    as [->|(v & t & s & _ & Hs & ->)]; [exact Hr|].
  rewrite update_sequence_tracking_rate.
  destruct (Z.eqb_spec s (uint16 (last_received_sequence m + 1))) as [_|Hne];
    [exact Hr|].
  rewrite Hr. apply loss_rate_update_absorbs; [|lia].
  apply lost_packets_positive; [apply uint16_range | exact Hs | exact Hne].
Qed.

Lemma infinite_loss_rate_stays_witness :
  let m := fst (network_process_packet (network_manager_create false 0)
                  (make_packet 1 2 0 []) 0) in
  packet_loss_rate (fst (network_process_packet m (make_packet 1 2 9 []) 0)) =
    S754_infinity false.
Proof.
  intros m.
  exact (infinite_loss_rate_stays m (make_packet 1 2 9 []) 0 eq_refl).
Defined.

(** ** The receive path, further *)

(** X5: the receive loop counts every datagram that is not empty, whatever
    it holds and whether or not it is then dropped: one more in
    [packets_received], and its length, cut to the buffer of 1400 bytes,
    more in [bytes_received]. *)
Theorem receive_step_counts :
  forall (m : NetworkManager) (datagram : list byte) (from_addr : sockaddr),
    datagram <> [] ->
    let m' := fst (network_receive_step m (RecvDatagram datagram from_addr)) in
    packets_received m' = uint32 (packets_received m + 1) /\
    bytes_received m' =
      uint32 (bytes_received m + Z.min (Z.of_nat (length datagram)) 1400).
Proof.
  intros m datagram from_addr Hne m'. subst m'.
  unfold network_receive_step.
  assert (Hlen : Z.of_nat (length (take (Z.to_nat MAX_PACKET_SIZE) datagram)) =
                 Z.min (Z.of_nat (length datagram)) 1400).
  { rewrite length_take. unfold MAX_PACKET_SIZE. lia. }
  rewrite Hlen.
  destruct (Z.ltb_spec 0 (Z.min (Z.of_nat (length datagram)) 1400)) as [_|Hle].
  - destruct (process_packet_cases
                (set_received_stats m (uint32 (packets_received m + 1))
                   (uint32 (bytes_received m
                            + Z.min (Z.of_nat (length datagram)) 1400)))
                (take (Z.to_nat MAX_PACKET_SIZE) datagram) from_addr)
      as [->|(v & t & s & _ & _ & ->)]; [split; reflexivity|].
    unfold update_sequence_tracking. destruct (negb _); split; reflexivity.
  - destruct datagram; [contradiction | simpl in Hle; lia].
Qed.

Lemma receive_step_counts_witness :
  let m' := fst (network_receive_step (network_manager_create true 0)
                   (RecvDatagram [x07; x07] 0)) in
  packets_received m' = 1 /\ bytes_received m' = 2.
Proof.
  intros m'.
  assert (H : [x07; x07] <> []) by discriminate.
  exact (receive_step_counts (network_manager_create true 0) [x07; x07] 0 H).
Defined.

Lemma process_packets_cons_accepted handlers m d rest from_addr t s :
  parse_header d = Some (METAVERSE_PROTOCOL_VERSION, t, s) ->
  fst (process_packets handlers m (d :: rest) from_addr) =
  fst (process_packets handlers
         (handlers (dispatch t (drop 4 d) from_addr)
            (update_sequence_tracking m s)) rest from_addr).
Proof.
  intros H. cbn [process_packets].
  rewrite (process_packet_accepted _ _ _ _ _ H).
  destruct (process_packets handlers _ rest from_addr). reflexivity.
Qed.

Lemma uint16_succ a : uint16 (uint16 a + 1) = uint16 (a + 1).
Proof. unfold uint16, wrap. apply Zplus_mod_idemp_l. Qed.

Lemma uint16_add_l a b : uint16 (uint16 a + b) = uint16 (a + b).
Proof. unfold uint16, wrap. apply Zplus_mod_idemp_l. Qed.

Lemma uint32_add_l a b : uint32 (uint32 a + b) = uint32 (a + b).
Proof. unfold uint32, wrap. apply Zplus_mod_idemp_l. Qed.

Lemma uint16_small n : 0 <= n < 65536 -> uint16 n = n.
Proof. intros H. apply Z.mod_small. exact H. Qed.

(** Packets that arrive with the sequence numbers the receiver expects,
    one after the other, leave the count of lost packets alone. *)
Lemma process_packets_in_order handlers from_addr :
  keeps_sequence_tracking handlers ->
  forall ds m,
    (forall i d, ds !! i = Some d ->
       packet_has_sequence d
         (uint16 (last_received_sequence m + 1 + Z.of_nat i)) = true) ->
    packets_lost (fst (process_packets handlers m ds from_addr)) =
      packets_lost m /\
    uint16 (last_received_sequence
              (fst (process_packets handlers m ds from_addr))) =
      uint16 (last_received_sequence m + Z.of_nat (length ds)).
Proof.
  intros Hk. induction ds as [|d rest IH]; intros m H.
  - simpl. rewrite Z.add_0_r. split; reflexivity.
  - pose proof (H 0%nat d eq_refl) as H0. rewrite Z.add_0_r in H0.
    destruct (packet_has_sequence_header _ _ H0) as [t E].
    rewrite (process_packets_cons_accepted _ _ _ _ _ _ _ E).
    set (m1 := handlers _ _).
    assert (Hl1 : last_received_sequence m1 =
                  uint16 (last_received_sequence m + 1)).
    { subst m1. rewrite (proj1 (Hk _ _)).
      apply update_sequence_tracking_last. }
    assert (Hp1 : packets_lost m1 = packets_lost m).
    { subst m1. rewrite (proj2 (Hk _ _)), update_sequence_tracking_lost.
      rewrite Z.eqb_refl. reflexivity. }
    destruct (IH m1) as [IHl IHs].
    { intros i d' Hi. rewrite Hl1.
      assert (Heq : uint16 (uint16 (last_received_sequence m + 1) + 1
                            + Z.of_nat i) =
                    uint16 (last_received_sequence m + 1 + Z.of_nat (S i))).
      { rewrite <- (Z.add_assoc (uint16 (last_received_sequence m + 1))).
        rewrite uint16_add_l. f_equal. lia. }
      rewrite Heq. apply (H (S i)). exact Hi. }
    split; [rewrite IHl; exact Hp1|].
    rewrite IHs, Hl1, uint16_add_l. f_equal. cbn [length]. lia.
Qed.

(** X6: packets that arrive in order, each with the sequence number after
    the one before and wrapping from 65535 to 0, count no loss, however
    many they are and whatever the handlers do besides. *)
Theorem in_order_stream_counts_no_loss :
  forall (handlers : list Effect -> NetworkManager -> NetworkManager)
         (m : NetworkManager) (ds : list (list byte)) (from_addr : sockaddr),
    keeps_sequence_tracking handlers ->
    (forall i d, ds !! i = Some d ->
       packet_has_sequence d
         (uint16 (last_received_sequence m + 1 + Z.of_nat i)) = true) ->
    packets_lost (fst (process_packets handlers m ds from_addr)) =
      packets_lost m /\
    uint16 (last_received_sequence
              (fst (process_packets handlers m ds from_addr))) =
      uint16 (last_received_sequence m + Z.of_nat (length ds)).
Proof.
  intros handlers m ds from_addr Hk H.
  exact (process_packets_in_order handlers from_addr Hk ds m H).
Qed.

Lemma in_order_stream_counts_no_loss_witness :
  let m := set_last_received_sequence (network_manager_create false 0) 65534 in
  let ds := [make_packet 1 10 65535 []; make_packet 1 2 0 [];
             make_packet 1 7 1 []] in
  packets_lost (fst (process_packets counting_handlers m ds 0)) = 0.
Proof.
  intros m ds.
  refine (proj1 (in_order_stream_counts_no_loss counting_handlers m ds 0
                   counting_handlers_keep_sequence_tracking _)).
  intros [|[|[|i]]] d Hd; try discriminate; injection Hd as <-; reflexivity.
Defined.

Lemma last_cons_default (s : Z) rest d :
  List.last (s :: rest) d = List.last rest s.
Proof.
  revert s d. induction rest as [|r rest IH]; intros s d; [reflexivity|].
  change (List.last (s :: r :: rest) d) with (List.last (r :: rest) d).
  rewrite (IH r d), (IH r s). reflexivity.
Qed.

(** X7: over packets whose sequence numbers climb without wrapping, the
    count of lost packets grows by the number of sequence numbers that
    were skipped: the last number seen, less the one seen before the run,
    less the packets received. *)
Theorem forward_gaps_add_up :
  forall (handlers : list Effect -> NetworkManager -> NetworkManager)
         (from_addr : sockaddr) (seqs : list Z) (ds : list (list byte))
         (m : NetworkManager),
    keeps_sequence_tracking handlers ->
    0 <= last_received_sequence m ->
    0 <= packets_lost m < 4294967296 ->
    Forall2 (fun d s => packet_has_sequence d s = true) ds seqs ->
    increasing_from (last_received_sequence m) seqs ->
    let m' := fst (process_packets handlers m ds from_addr) in
    last_received_sequence m' = List.last seqs (last_received_sequence m) /\
    packets_lost m' =
      uint32 (packets_lost m
              + (List.last seqs (last_received_sequence m)
                 - last_received_sequence m - Z.of_nat (length seqs))).
Proof.
  intros handlers from_addr seqs.
  induction seqs as [|s rest IH]; intros ds m Hk Hl Hp HF Hinc m'; subst m'.
  - inversion HF; subst. simpl.
    split; [reflexivity|]. rewrite Z.sub_diag, Z.add_0_r, uint32_small; auto.
  - inversion HF as [|d s' ds' rest' Hd HF']; subst.
    destruct Hinc as [Hs Hinc].
    destruct (packet_has_sequence_header _ _ Hd) as [t E].
    rewrite (process_packets_cons_accepted _ _ _ _ _ _ _ E).
    set (m1 := handlers _ _).
    assert (Hl1 : last_received_sequence m1 = s).
    { subst m1. rewrite (proj1 (Hk _ _)).
      apply update_sequence_tracking_last. }
    assert (He : uint16 (last_received_sequence m + 1) =
                 last_received_sequence m + 1)
      by (apply uint16_small; lia).
    assert (Hp1 : packets_lost m1 =
                  uint32 (packets_lost m + (s - last_received_sequence m - 1))).
    { subst m1. rewrite (proj2 (Hk _ _)), update_sequence_tracking_lost, He.
      destruct (Z.eqb_spec s (last_received_sequence m + 1)) as [->|Hne].
      - replace (last_received_sequence m + 1 - last_received_sequence m - 1)
          with 0 by lia.
        rewrite Z.add_0_r, uint32_small; auto.
      - unfold lost_packets. rewrite uint16_small by lia.
        f_equal. lia. }
    destruct (IH ds' m1 Hk) as [IHl IHp].
    { lia. } { rewrite Hp1. apply uint32_range. } { exact HF'. }
    { rewrite Hl1. exact Hinc. }
    rewrite last_cons_default. rewrite Hl1 in IHl, IHp.
    split; [exact IHl|].
    rewrite IHp, Hp1, uint32_add_l. f_equal. cbn [length]. lia.
Qed.

Lemma forward_gaps_add_up_witness :
  let m := network_manager_create false 0 in
  let ds := [make_packet 1 10 3 []; make_packet 1 2 4 [];
             make_packet 1 7 9 []] in
  packets_lost (fst (process_packets counting_handlers m ds 0)) = 6.
Proof.
  intros m ds.
  assert (HF : Forall2 (fun d s => packet_has_sequence d s = true) ds [3; 4; 9]).
  { repeat constructor. }
  assert (Hinc : increasing_from (last_received_sequence m) [3; 4; 9]).
  { simpl. lia. }
  assert (Hp : 0 <= packets_lost m < 4294967296) by (simpl; lia).
  assert (Hl : 0 <= last_received_sequence m) by (simpl; lia).
  exact (proj2 (forward_gaps_add_up counting_handlers 0 [3; 4; 9] ds m
                  counting_handlers_keep_sequence_tracking Hl Hp HF Hinc)).
Defined.

(** X8: a packet that repeats the last received sequence number is not
    recognised as a repeat: it adds 65535 to the count of lost packets. *)
Theorem duplicate_counts_65535_lost :
  forall (m : NetworkManager) (data : list byte) (from_addr : sockaddr)
         (t : Z),
    parse_header data =
      Some (METAVERSE_PROTOCOL_VERSION, t, last_received_sequence m) ->
    let m' := fst (network_process_packet m data from_addr) in
    packets_lost m' = uint32 (packets_lost m + 65535) /\
    last_received_sequence m' = last_received_sequence m.
Proof.
  intros m data from_addr t H m'. subst m'.
  pose proof (parse_header_sequence_range _ _ _ _ H) as Hs.
  rewrite (process_packet_accepted _ _ _ _ _ H). cbn [fst].
  rewrite update_sequence_tracking_last, update_sequence_tracking_lost.
  split; [|reflexivity].
  assert (Hl : lost_packets (uint16 (last_received_sequence m + 1))
                 (last_received_sequence m) = 65535).
  { unfold lost_packets, uint16, wrap. change (2 ^ 16) with 65536.
    destruct (Z.eq_dec (last_received_sequence m) 65535) as [->|Hne].
    - reflexivity.
    - rewrite (Z.mod_small (last_received_sequence m + 1)) by lia.
      replace (last_received_sequence m - (last_received_sequence m + 1))
        with (-1) by lia. reflexivity. }
  rewrite Hl.
  destruct (Z.eqb_spec (last_received_sequence m)
              (uint16 (last_received_sequence m + 1))) as [E|_];
    [|reflexivity].
  exfalso. rewrite E in Hl at 2. unfold lost_packets in Hl.
  rewrite Z.sub_diag in Hl. discriminate.
Qed.

Lemma duplicate_counts_65535_lost_witness :
  let m := set_last_received_sequence (network_manager_create false 0) 9 in
  packets_lost (fst (network_process_packet m (make_packet 1 10 9 []) 0)) =
    65535.
Proof.
  intros m.
  exact (proj1 (duplicate_counts_65535_lost m (make_packet 1 10 9 []) 0 10
                  eq_refl)).
Defined.

(** X9: the [switch] has a case for ten of the packet types.  A packet of
    the supported version with type [PACKET_ENTITY_CREATE] (3),
    [PACKET_ENTITY_DESTROY] (4) or a type byte of 12 and more passes the
    sequence tracking and reaches no handler; any other reaches exactly one
    handler, with the bytes after the header. *)
Theorem unhandled_packet_types :
  forall (m : NetworkManager) (data : list byte) (from_addr : sockaddr)
         (t s : Z),
    parse_header data = Some (METAVERSE_PROTOCOL_VERSION, t, s) ->
    let r := network_process_packet m data from_addr in
    last_received_sequence (fst r) = s /\
    (t = 3 \/ t = 4 \/ 12 <= t -> snd r = []) /\
    (t <> 3 -> t <> 4 -> t < 12 ->
     exists h, snd r = [CallHandler h (drop 4 data) from_addr]).
Proof.
  intros m data from_addr t s H r. subst r.
  assert (Ht : 0 <= t).
  { unfold parse_header in H.
    destruct (data !! 0%nat); simpl in H; [|discriminate].
    destruct (data !! 1%nat) as [b1|]; simpl in H; [|discriminate].
    destruct (read_u16 data 2); simpl in H; [|discriminate].
    injection H as _ <- _. apply byte_val_range. }
  rewrite (process_packet_accepted _ _ _ _ _ H). cbn [fst snd].
  split; [apply update_sequence_tracking_last|].
  unfold dispatch, handler_of_packet_type, packet_type_of_code,
    all_packet_types.
  cbn [List.find packet_type_code].
  split.
  - intros Hun.
    repeat (match goal with
            | |- context [?a =? t] =>
                destruct (Z.eqb_spec a t); [try lia|]
            end);
      try reflexivity.
  - intros H3 H4 H12.
    repeat (match goal with
            | |- context [?a =? t] =>
                destruct (Z.eqb_spec a t); [eauto; try lia|]
            end).
    lia.
Qed.

Lemma unhandled_packet_types_witness :
  snd (network_process_packet (network_manager_create false 0)
         (make_packet 1 3 1 [x2a]) 0) = [].
Proof.
  destruct (unhandled_packet_types (network_manager_create false 0)
              (make_packet 1 3 1 [x2a]) 0 3 1 eq_refl) as (_ & Hun & _).
  apply Hun. left. reflexivity.
Defined.

(** ** Entity updates on the wire *)

Lemma byte_val_byte_of_Z n : byte_val (byte_of_Z n) = n mod 256.
Proof.
  unfold byte_val, byte_of_Z, uint8, wrap. change (2 ^ 8) with 256.
  pose proof (Z.mod_pos_bound n 256 ltac:(lia)) as Hb.
  destruct (Byte.of_N (Z.to_N (n mod 256))) as [b|] eqn:E.
  - apply Byte.to_of_N in E. rewrite E. lia.
  - apply Byte.of_N_None_iff in E. lia.
Qed.

Lemma length_le_bytes k : forall n, length (le_bytes k n) = k.
Proof. induction k as [|k IH]; intros n; simpl; [|rewrite IH]; reflexivity. Qed.

(** Reading back what [le_bytes] wrote gives the number, cut to the width
    written. *)
Lemma read_le_bytes k : forall n rest,
  read_le k (le_bytes k n ++ rest) = n mod 256 ^ Z.of_nat k.
Proof.
  induction k as [|k IH]; intros n rest.
  - simpl. rewrite Z.mod_1_r. destruct rest; reflexivity.
  - cbn [le_bytes app read_le]. rewrite IH, byte_val_byte_of_Z.
    rewrite Z.mod_mod by lia.
    rewrite Nat2Z.inj_succ, Z.pow_succ_r by lia.
    rewrite (Z.rem_mul_r n 256 (256 ^ Z.of_nat k)) by lia. reflexivity.
Qed.

Lemma length_vector_bytes float_bytes v :
  (forall x, length (float_bytes x) = 4%nat) ->
  length (vector_bytes float_bytes v) = 16%nat.
Proof.
  intros H. unfold vector_bytes. rewrite !length_app, !H. reflexivity.
Qed.

Lemma length_entity_update_packet float_bytes sequence entity now :
  (forall x, length (float_bytes x) = 4%nat) ->
  length (entity_update_packet float_bytes sequence entity now) = 73%nat.
Proof.
  intros H. unfold entity_update_packet.
  rewrite !length_app, !length_le_bytes, !(length_vector_bytes _ _ H).
  reflexivity.
Qed.

Lemma parse_header_entity_update float_bytes sequence entity now :
  parse_header (entity_update_packet float_bytes sequence entity now) =
    Some (METAVERSE_PROTOCOL_VERSION,
          packet_type_code PACKET_ENTITY_UPDATE, uint16 sequence).
Proof.
  unfold entity_update_packet, parse_header, read_u16.
  cbn [app le_bytes lookup list_lookup mbind option_bind].
  rewrite !byte_val_byte_of_Z.
  change (METAVERSE_PROTOCOL_VERSION mod 256) with METAVERSE_PROTOCOL_VERSION.
  change (packet_type_code PACKET_ENTITY_UPDATE mod 256)
    with (packet_type_code PACKET_ENTITY_UPDATE).
  do 3 f_equal. unfold uint16, wrap. change (2 ^ 16) with (256 * 256).
  rewrite !Z.mod_mod by lia.
  rewrite (Z.rem_mul_r sequence 256 256) by lia. reflexivity.
Qed.

(** What the function hands to [sendto]: the packet, to every
    destination. *)
Lemma send_entity_update_datagrams float_bytes m entity now a pkt :
  (forall x, length (float_bytes x) = 4%nat) ->
  In (a, pkt) (snd (network_send_entity_update float_bytes m entity now)) ->
  pkt = entity_update_packet float_bytes (next_send_sequence m) entity now.
Proof.
  intros Hf. unfold network_send_entity_update.
  destruct (negb (is_connected m)); [intros []|]. cbn [snd].
  rewrite take_ge
    by (rewrite (length_entity_update_packet _ _ _ _ Hf); vm_compute; lia).
  destruct (is_server m).
  - induction (players m) as [|p ps IH]; simpl; [intros []|].
    destruct (connected p); [|exact IH].
    intros [E|Hin]; [congruence | exact (IH Hin)].
  - intros [E|[]]. congruence.
Qed.

(** X10: an entity update is a datagram of 73 bytes, under the buffer of
    1400.  A receiver takes it for a packet of the supported version with
    the sender's send sequence number and hands its 69 bytes of payload to
    [network_handle_entity_update]; the sender's sequence number moves on
    by one, wrapping at 65536. *)
Theorem entity_update_accepted_by_receiver :
  forall (float_bytes : spec_float -> list byte) (m : NetworkManager)
         (entity : NetworkEntity) (now : Z) (a : sockaddr) (pkt : list byte)
         (receiver : NetworkManager) (from_addr : sockaddr),
    (forall x, length (float_bytes x) = 4%nat) ->
    In (a, pkt) (snd (network_send_entity_update float_bytes m entity now)) ->
    is_connected m = true /\
    next_send_sequence
      (fst (network_send_entity_update float_bytes m entity now)) =
      uint16 (next_send_sequence m + 1) /\
    Z.of_nat (length pkt) = entity_update_packet_size /\
    entity_update_packet_size = 73 /\
    entity_update_packet_size <= MAX_PACKET_SIZE /\
    length (drop 4 pkt) = 69%nat /\
    last_received_sequence
      (fst (network_process_packet receiver pkt from_addr)) =
      uint16 (next_send_sequence m) /\
    snd (network_process_packet receiver pkt from_addr) =
      [CallHandler network_handle_entity_update (drop 4 pkt) from_addr].
Proof.
  intros float_bytes m entity now a pkt receiver from_addr Hf Hin.
  pose proof (send_entity_update_datagrams _ _ _ _ _ _ Hf Hin) as ->.
  pose proof (length_entity_update_packet float_bytes (next_send_sequence m)
                entity now Hf) as Hlen.
  pose proof (parse_header_entity_update float_bytes (next_send_sequence m)
                entity now) as Hh.
  unfold network_send_entity_update in *.
  destruct (is_connected m); [|destruct Hin]. cbn [negb fst].
  split; [reflexivity|]. split; [reflexivity|].
  split; [rewrite Hlen; reflexivity|].
  split; [reflexivity|]. split; [vm_compute; discriminate|].
  split; [rewrite length_drop, Hlen; reflexivity|].
  rewrite (process_packet_accepted _ _ _ _ _ Hh). cbn [fst snd].
  split; [apply update_sequence_tracking_last | reflexivity].
Qed.

(** A sample client, connected to a server at address 9. *)
Lemma entity_update_accepted_by_receiver_witness :
  let pkt := entity_update_packet ieee_float_bytes 0 (sample_entity 1) 100 in
  snd (network_process_packet (network_manager_create true 0) pkt 9) =
    [CallHandler network_handle_entity_update (drop 4 pkt) 9].
Proof.
  intros pkt.
  assert (Hf : forall x, length (ieee_float_bytes x) = 4%nat)
    by (intros x; apply length_le_bytes).
  refine (proj2 (proj2 (proj2 (proj2 (proj2 (proj2 (proj2
            (entity_update_accepted_by_receiver ieee_float_bytes
               sample_connected_client (sample_entity 1) 100 9 pkt
               (network_manager_create true 0) 9 Hf _)))))))).
  left. reflexivity.
Defined.

Lemma datagrams_to_connected_filter ps pkt :
  datagrams_to_connected ps pkt =
    map (fun p => (address p, pkt)) (List.filter connected ps).
Proof.
  induction ps as [|p rest IH]; simpl; [reflexivity|].
  destruct (connected p); simpl; rewrite IH; reflexivity.
Qed.

(** X11: a manager that is not connected sends no entity update and keeps
    its sequence number.  A connected server sends the packet to every
    connected player, in table order; a connected client sends it to the
    server.  Either way the statistics count one packet of 73 bytes,
    however many datagrams went out. *)
Theorem entity_update_recipients :
  forall (float_bytes : spec_float -> list byte) (m : NetworkManager)
         (entity : NetworkEntity) (now : Z),
    (forall x, length (float_bytes x) = 4%nat) ->
    let r := network_send_entity_update float_bytes m entity now in
    let pkt :=
      entity_update_packet float_bytes (next_send_sequence m) entity now in
    (is_connected m = false -> r = (m, [])) /\
    (is_connected m = true ->
     snd r =
       (if is_server m
        then map (fun p => (address p, pkt)) (List.filter connected (players m))
        else [(server_address m, pkt)]) /\
     packets_sent (fst r) = uint32 (packets_sent m + 1) /\
     bytes_sent (fst r) = uint32 (bytes_sent m + 73)).
Proof.
  intros float_bytes m entity now Hf r pkt. subst r pkt.
  unfold network_send_entity_update.
  split; intros Hc; rewrite Hc; [reflexivity|]. cbn [negb fst snd].
  rewrite take_ge
    by (rewrite (length_entity_update_packet _ _ _ _ Hf); vm_compute; lia).
  split; [|split; reflexivity].
  destruct (is_server m); [apply datagrams_to_connected_filter | reflexivity].
Qed.

Lemma entity_update_recipients_witness :
  snd (network_send_entity_update ieee_float_bytes sample_connected_client
         (sample_entity 1) 100) =
    [(9, entity_update_packet ieee_float_bytes 0 (sample_entity 1) 100)].
Proof.
  assert (Hf : forall x, length (ieee_float_bytes x) = 4%nat)
    by (intros x; apply length_le_bytes).
  destruct (entity_update_recipients ieee_float_bytes sample_connected_client
              (sample_entity 1) 100 Hf) as [_ H].
  exact (proj1 (H eq_refl)).
Defined.

Lemma drop_piece {A} (n k t : nat) (l1 l2 : list A) :
  length l1 = n -> t = (n + k)%nat -> drop t (l1 ++ l2) = drop k l2.
Proof.
  intros <- ->. rewrite <- drop_drop, drop_app_length. reflexivity.
Qed.

Lemma take_piece {A} (n : nat) (l1 l2 : list A) :
  length l1 = n -> take n (l1 ++ l2) = l1.
Proof. intros <-. apply take_app_length. Qed.

(** X12: the payload of an entity update holds the entity id in its first
    eight bytes, the owner in the next four, the type in the next one, the
    flags in the next four, then three vectors of 16 bytes and the time
    stamp in the last four; each number least significant byte first, so
    that reading it back gives the field. *)
Theorem entity_update_payload_fields :
  forall (float_bytes : spec_float -> list byte) (sequence : Z)
         (entity : NetworkEntity) (now : Z),
    (forall x, length (float_bytes x) = 4%nat) ->
    0 <= entity_id entity < 2 ^ 64 ->
    0 <= owner_id entity < 2 ^ 32 ->
    0 <= entity_type entity < 256 ->
    0 <= flags entity < 2 ^ 32 ->
    let payload :=
      drop 4 (entity_update_packet float_bytes sequence entity now) in
    read_le 8 payload = entity_id entity /\
    read_le 4 (drop 8 payload) = owner_id entity /\
    read_le 1 (drop 12 payload) = entity_type entity /\
    read_le 4 (drop 13 payload) = flags entity /\
    take 16 (drop 17 payload) = vector_bytes float_bytes (position entity) /\
    take 16 (drop 33 payload) = vector_bytes float_bytes (rotation entity) /\
    take 16 (drop 49 payload) = vector_bytes float_bytes (velocity entity) /\
    read_le 4 (drop 65 payload) = uint32 now.
Proof.
  intros float_bytes sequence entity now Hf Hid Ho Ht Hfl payload.
  pose proof (length_vector_bytes float_bytes (position entity) Hf) as Lp.
  pose proof (length_vector_bytes float_bytes (rotation entity) Hf) as Lr.
  pose proof (length_vector_bytes float_bytes (velocity entity) Hf) as Lv.
  pose proof (fun k n => length_le_bytes k n) as Ll.
  assert (Hpay : payload =
            le_bytes 8 (entity_id entity) ++ le_bytes 4 (owner_id entity)
            ++ [byte_of_Z (entity_type entity)] ++ le_bytes 4 (flags entity)
            ++ vector_bytes float_bytes (position entity)
            ++ vector_bytes float_bytes (rotation entity)
            ++ vector_bytes float_bytes (velocity entity)
            ++ le_bytes 4 (uint32 now)).
  { subst payload. unfold entity_update_packet.
    rewrite (drop_piece 2 2 4 [_; _] _ eq_refl eq_refl).
    rewrite (drop_piece 2 0 2 _ _ (Ll _ _) eq_refl). reflexivity. }
  rewrite Hpay. clear Hpay payload.
  split.
  { rewrite (read_le_bytes 8). apply Z.mod_small. exact Hid. }
  split.
  { rewrite (drop_piece 8 0 8 _ _ (Ll _ _) eq_refl). rewrite drop_0.
    rewrite (read_le_bytes 4). apply Z.mod_small. exact Ho. }
  split.
  { rewrite (drop_piece 8 4 12 _ _ (Ll _ _) eq_refl).
    rewrite (drop_piece 4 0 4 _ _ (Ll _ _) eq_refl).
    rewrite drop_0. cbn [app read_le]. rewrite byte_val_byte_of_Z.
    rewrite Z.mod_small by exact Ht. lia. }
  split.
  { rewrite (drop_piece 8 5 13 _ _ (Ll _ _) eq_refl).
    rewrite (drop_piece 4 1 5 _ _ (Ll _ _) eq_refl).
    rewrite (drop_piece 1 0 1 [_] _ eq_refl eq_refl). rewrite drop_0.
    rewrite (read_le_bytes 4). apply Z.mod_small. exact Hfl. }
  split.
  { rewrite (drop_piece 8 9 17 _ _ (Ll _ _) eq_refl).
    rewrite (drop_piece 4 5 9 _ _ (Ll _ _) eq_refl).
    rewrite (drop_piece 1 4 5 [_] _ eq_refl eq_refl).
    rewrite (drop_piece 4 0 4 _ _ (Ll _ _) eq_refl). rewrite drop_0.
    apply take_piece, Lp. }
  split.
  { rewrite (drop_piece 8 25 33 _ _ (Ll _ _) eq_refl).
    rewrite (drop_piece 4 21 25 _ _ (Ll _ _) eq_refl).
    rewrite (drop_piece 1 20 21 [_] _ eq_refl eq_refl).
    rewrite (drop_piece 4 16 20 _ _ (Ll _ _) eq_refl).
    rewrite (drop_piece 16 0 16 _ _ Lp eq_refl). rewrite drop_0.
    apply take_piece, Lr. }
  split.
  { rewrite (drop_piece 8 41 49 _ _ (Ll _ _) eq_refl).
    rewrite (drop_piece 4 37 41 _ _ (Ll _ _) eq_refl).
    rewrite (drop_piece 1 36 37 [_] _ eq_refl eq_refl).
    rewrite (drop_piece 4 32 36 _ _ (Ll _ _) eq_refl).
    rewrite (drop_piece 16 16 32 _ _ Lp eq_refl).
    rewrite (drop_piece 16 0 16 _ _ Lr eq_refl). rewrite drop_0.
    apply take_piece, Lv. }
  rewrite (drop_piece 8 57 65 _ _ (Ll _ _) eq_refl).
  rewrite (drop_piece 4 53 57 _ _ (Ll _ _) eq_refl).
  rewrite (drop_piece 1 52 53 [_] _ eq_refl eq_refl).
  rewrite (drop_piece 4 48 52 _ _ (Ll _ _) eq_refl).
  rewrite (drop_piece 16 32 48 _ _ Lp eq_refl).
  rewrite (drop_piece 16 16 32 _ _ Lr eq_refl).
  rewrite (drop_piece 16 0 16 _ _ Lv eq_refl). rewrite drop_0.
  rewrite <- (app_nil_r (le_bytes 4 (uint32 now))), (read_le_bytes 4).
  apply Z.mod_small. apply uint32_range.
Qed.

Lemma entity_update_payload_fields_witness :
  read_le 8
    (drop 4 (entity_update_packet ieee_float_bytes 5 (sample_entity 1) 100)) =
    7.
Proof.
  assert (Hf : forall x, length (ieee_float_bytes x) = 4%nat)
    by (intros x; apply length_le_bytes).
  assert (H1 : 0 <= entity_id (sample_entity 1) < 2 ^ 64) by (simpl; lia).
  assert (H2 : 0 <= owner_id (sample_entity 1) < 2 ^ 32) by (simpl; lia).
  assert (H3 : 0 <= entity_type (sample_entity 1) < 256) by (simpl; lia).
  assert (H4 : 0 <= flags (sample_entity 1) < 2 ^ 32) by (simpl; lia).
  exact (proj1 (entity_update_payload_fields ieee_float_bytes 5
                  (sample_entity 1) 100 Hf H1 H2 H3 H4)).
Defined.

(** X13: the sender numbers its first packet 0 while a receiver that has
    received nothing expects 1.  The first entity update of a sender whose
    send sequence is 0, met by a receiver whose last received sequence is
    0, is counted as 65535 lost packets and, having sequence number 0,
    makes the loss rate plus infinity. *)
Theorem first_update_counts_as_loss :
  forall (float_bytes : spec_float -> list byte) (m : NetworkManager)
         (entity : NetworkEntity) (now : Z) (a : sockaddr) (pkt : list byte)
         (receiver : NetworkManager) (from_addr : sockaddr),
    (forall x, length (float_bytes x) = 4%nat) ->
    In (a, pkt) (snd (network_send_entity_update float_bytes m entity now)) ->
    next_send_sequence m = 0 ->
    last_received_sequence receiver = 0 ->
    not_negative (packet_loss_rate receiver) = true ->
    let receiver' := fst (network_process_packet receiver pkt from_addr) in
    packets_lost receiver' = uint32 (packets_lost receiver + 65535) /\
    packet_loss_rate receiver' = S754_infinity false.
Proof.
  intros float_bytes m entity now a pkt receiver from_addr Hf Hin Hn Hl Hr
    receiver'. subst receiver'.
  pose proof (send_entity_update_datagrams _ _ _ _ _ _ Hf Hin) as ->.
  pose proof (parse_header_entity_update float_bytes (next_send_sequence m)
                entity now) as Hh.
  rewrite Hn in *. change (uint16 0) with 0 in Hh.
  rewrite (process_packet_accepted _ _ _ _ _ Hh). cbn [fst].
  rewrite update_sequence_tracking_lost, update_sequence_tracking_rate, Hl.
  change (0 =? uint16 (0 + 1)) with false. cbn iota.
  change (lost_packets (uint16 (0 + 1)) 0) with 65535.
  split; [reflexivity|].
  apply loss_rate_update_infinite; [exact Hr | lia].
Qed.

Lemma first_update_counts_as_loss_witness :
  let pkt := entity_update_packet ieee_float_bytes 0 (sample_entity 1) 100 in
  packets_lost
    (fst (network_process_packet (network_manager_create true 0) pkt 9)) =
    65535.
Proof.
  intros pkt.
  assert (Hf : forall x, length (ieee_float_bytes x) = 4%nat)
    by (intros x; apply length_le_bytes).
  assert (Hin : In (9, pkt)
            (snd (network_send_entity_update ieee_float_bytes
                    sample_connected_client (sample_entity 1) 100)))
    by (left; reflexivity).
  exact (proj1 (first_update_counts_as_loss ieee_float_bytes
                  sample_connected_client (sample_entity 1) 100 9 pkt
                  (network_manager_create true 0) 9 Hf Hin
                  eq_refl eq_refl eq_refl)).
Defined.

Lemma uint16_idem a : uint16 (uint16 a) = uint16 a.
Proof. unfold uint16, wrap. apply Z.mod_mod. lia. Qed.

Lemma packet_has_sequence_entity_update float_bytes sequence entity now :
  packet_has_sequence
    (entity_update_packet float_bytes sequence entity now)
    (uint16 sequence) = true.
Proof.
  unfold packet_has_sequence. rewrite parse_header_entity_update.
  rewrite !Z.eqb_refl. reflexivity.
Qed.

(** The packets a connected client sends in a row carry the sequence
    numbers that follow its send sequence. *)
Lemma send_entity_updates_sequences float_bytes :
  (forall x, length (float_bytes x) = 4%nat) ->
  forall updates m,
    is_server m = false -> is_connected m = true ->
    length (snd (send_entity_updates float_bytes m updates)) = length updates /\
    next_send_sequence (fst (send_entity_updates float_bytes m updates)) =
      (match updates with
       | [] => next_send_sequence m
       | _ => uint16 (next_send_sequence m + Z.of_nat (length updates))
       end) /\
    forall i d,
      map snd (snd (send_entity_updates float_bytes m updates)) !! i = Some d ->
      packet_has_sequence d (uint16 (next_send_sequence m + Z.of_nat i)) = true.
Proof.
  intros Hf. induction updates as [|[entity now] rest IH]; intros m Hs Hc.
  - simpl. split; [reflexivity|]. split; [reflexivity|]. intros i d Hd.
    discriminate.
  - cbn [send_entity_updates].
    assert (Hstep : network_send_entity_update float_bytes m entity now =
              (set_sent m (uint16 (next_send_sequence m + 1))
                 (uint32 (packets_sent m + 1))
                 (uint32 (bytes_sent m + entity_update_packet_size)),
               [(server_address m,
                 entity_update_packet float_bytes (next_send_sequence m)
                   entity now)])).
    { unfold network_send_entity_update. rewrite Hc, Hs. cbn [negb].
      rewrite take_ge
        by (rewrite (length_entity_update_packet _ _ _ _ Hf); vm_compute; lia).
      reflexivity. }
    rewrite Hstep. set (m1 := set_sent m _ _ _).
    destruct (IH m1 Hs Hc) as (IHlen & IHnext & IHseq).
    destruct (send_entity_updates float_bytes m1 rest) as [m2 out2].
    cbn [fst snd] in *.
    split; [cbn [app length]; rewrite IHlen; reflexivity|].
    split.
    + rewrite IHnext. subst m1. cbn [next_send_sequence set_sent].
      destruct rest as [|u rest'].
      * cbn [length]. f_equal.
      * rewrite uint16_add_l. f_equal. cbn [length]. lia.
    + intros [|i] d Hd; cbn [app map lookup list_lookup snd] in Hd.
      * injection Hd as <-. rewrite Z.add_0_r.
        apply packet_has_sequence_entity_update.
      * specialize (IHseq i d Hd). subst m1.
        cbn [next_send_sequence set_sent] in IHseq.
        rewrite uint16_add_l in IHseq.
        replace (next_send_sequence m + Z.of_nat (S i))
          with (next_send_sequence m + 1 + Z.of_nat i) by lia.
        exact IHseq.
Qed.

(** X14: sender and receiver agree on an unbroken stream.  When a
    connected client sends entity updates one after the other and a
    receiver that expects the client's send sequence number processes the
    datagrams in the order sent, the receiver counts no lost packet,
    however long the stream and across the wrap from 65535 to 0. *)
Theorem update_stream_received_without_loss :
  forall (float_bytes : spec_float -> list byte)
         (handlers : list Effect -> NetworkManager -> NetworkManager)
         (m receiver : NetworkManager) (updates : list (NetworkEntity * Z))
         (from_addr : sockaddr),
    (forall x, length (float_bytes x) = 4%nat) ->
    keeps_sequence_tracking handlers ->
    is_server m = false -> is_connected m = true ->
    uint16 (last_received_sequence receiver + 1) =
      uint16 (next_send_sequence m) ->
    let sent := snd (send_entity_updates float_bytes m updates) in
    let receiver' :=
      fst (process_packets handlers receiver (map snd sent) from_addr) in
    length sent = length updates /\
    packets_lost receiver' = packets_lost receiver /\
    uint16 (last_received_sequence receiver') =
      uint16 (last_received_sequence receiver + Z.of_nat (length updates)).
Proof.
  intros float_bytes handlers m receiver updates from_addr Hf Hk Hs Hc Hexp
    sent receiver'. subst sent receiver'.
  destruct (send_entity_updates_sequences float_bytes Hf updates m Hs Hc)
    as (Hlen & _ & Hseq).
  split; [exact Hlen|].
  destruct (process_packets_in_order handlers from_addr Hk
              (map snd (snd (send_entity_updates float_bytes m updates)))
              receiver) as [Hlost Hlast].
  - intros i d Hd. specialize (Hseq i d Hd).
    rewrite <- uint16_add_l, Hexp, uint16_add_l. exact Hseq.
  - split; [exact Hlost|]. rewrite Hlast, length_map, Hlen. reflexivity.
Qed.

Lemma update_stream_received_without_loss_witness :
  let m := set_sent sample_connected_client 65535 0 0 in
  let receiver :=
    set_last_received_sequence (network_manager_create true 0) 65534 in
  let sent :=
    snd (send_entity_updates ieee_float_bytes m
           [(sample_entity 1, 100); (sample_entity 0, 101)]) in
  packets_lost
    (fst (process_packets counting_handlers receiver (map snd sent) 9)) = 0.
Proof.
  intros m receiver sent.
  assert (Hf : forall x, length (ieee_float_bytes x) = 4%nat)
    by (intros x; apply length_le_bytes).
  exact (proj1 (proj2 (update_stream_received_without_loss ieee_float_bytes
                  counting_handlers m receiver
                  [(sample_entity 1, 100); (sample_entity 0, 101)] 9 Hf
                  counting_handlers_keep_sequence_tracking
                  eq_refl eq_refl eq_refl))).
Defined.

(** ** Snapshots, further *)

Lemma snapshot_collect_entries clock es : forall i count acc,
  count = Z.of_nat (length acc) ->
  (length acc <= 64)%nat ->
  snd (snapshot_collect clock i es count acc) =
    acc ++ take (64 - length acc)
             (map snd (List.filter (recent_at clock)
                         (combine (seq i (length es)) es))).
Proof.
  induction es as [|e rest IH]; intros i count acc Hc Hl;
    cbn [snapshot_collect].
  - simpl. rewrite take_nil, app_nil_r. reflexivity.
  - destruct (Z.geb_spec count MAX_ENTITIES_PER_PACKET) as [Hge|Hlt];
      unfold MAX_ENTITIES_PER_PACKET in *.
    + cbn [snd]. replace (64 - length acc)%nat with 0%nat by lia.
      rewrite take_0, app_nil_r. reflexivity.
    + cbn [length seq combine List.filter].
      change (recent_at clock (i, e))
        with (uint32 (uint32 (clock i) - last_update e) <=? 2).
      destruct (uint32 (uint32 (clock i) - last_update e) <=? 2).
      * rewrite (IH (S i) (uint32 (count + 1)) (acc ++ [e])).
        -- rewrite length_app. cbn [length map snd].
           replace (64 - length acc)%nat
             with (S (64 - (length acc + 1)))%nat by lia.
           cbn [take]. rewrite <- app_assoc. reflexivity.
        -- rewrite uint32_small by lia. rewrite length_app. simpl. lia.
        -- rewrite length_app. simpl. lia.
      * apply IH; assumption.
Qed.

Lemma filter_recent_combine t es : forall i,
  map snd (List.filter (recent_at (fun _ => t))
             (combine (seq i (length es)) es)) =
    List.filter (recent t) es.
Proof.
  induction es as [|e rest IH]; intros i; [reflexivity|].
  cbn [length seq combine List.filter].
  change (recent_at (fun _ => t) (i, e)) with (recent t e).
  destruct (recent t e); cbn [map snd]; rewrite IH; reflexivity.
Qed.

(** X15: the snapshot holds the entities that pass the test of recency,
    each against the reading of the clock in its turn, in the order of the
    table, and of those the first 64.  When more than 64 are recent the
    ones further down the table are left out, whatever their
    [last_update]. *)
Theorem snapshot_takes_first_recent :
  forall (m : NetworkManager) (snapshot_counter now : Z) (clock : nat -> Z),
    snap_entities (build_snapshot m snapshot_counter now clock) =
      take 64
        (map snd (List.filter (recent_at clock)
                    (combine (seq 0 (length (entities m))) (entities m)))) /\
    forall t, (forall i, clock i = t) ->
      snap_entities (build_snapshot m snapshot_counter now clock) =
        take 64 (List.filter (recent t) (entities m)).
Proof.
  intros m snapshot_counter now clock.
  assert (H : snap_entities (build_snapshot m snapshot_counter now clock) =
              take 64
                (map snd (List.filter (recent_at clock)
                   (combine (seq 0 (length (entities m))) (entities m))))).
  { unfold build_snapshot.
    pose proof (snapshot_collect_entries clock (entities m) 0%nat 0 []
                  eq_refl ltac:(simpl; lia)) as Hs.
    destruct (snapshot_collect clock 0 (entities m) 0 []) as [count slots].
    exact Hs. }
  split; [exact H|].
  intros t Ht. rewrite H.
  assert (Hext : forall ie, recent_at clock ie = recent_at (fun _ => t) ie).
  { intros [i e]. unfold recent_at. cbn [fst snd]. rewrite Ht. reflexivity. }
  rewrite (filter_ext _ _ Hext), filter_recent_combine. reflexivity.
Qed.

Lemma snapshot_takes_first_recent_witness :
  snap_entities
    (build_snapshot
       (set_entities (network_manager_create true 0) seventy_fresh_entities)
       0 100 (fun _ => 100)) =
    take 64 (List.filter (recent 100) seventy_fresh_entities).
Proof.
  exact (proj2 (snapshot_takes_first_recent
                  (set_entities (network_manager_create true 0)
                     seventy_fresh_entities) 0 100 (fun _ => 100))
               100 (fun _ => eq_refl)).
Defined.

(** X16: at a clock that stands still, the snapshot counts the recent
    entities up to 64, and its packet of [144 + 62 * count] bytes is larger
    than the buffer of [MAX_PACKET_SIZE] bytes it is written to exactly
    when more than 20 entities are recent. *)
Theorem snapshot_packet_exceeds_buffer :
  forall (m : NetworkManager) (snapshot_counter now t : Z),
    let snapshot := build_snapshot m snapshot_counter now (fun _ => t) in
    let n := Z.of_nat (length (List.filter (recent t) (entities m))) in
    snap_entity_count snapshot = Z.min n 64 /\
    snapshot_packet_size snapshot = 144 + 62 * Z.min n 64 /\
    (MAX_PACKET_SIZE < snapshot_packet_size snapshot <-> 20 < n).
Proof.
  intros m snapshot_counter now t snapshot n.
  assert (Hc : snap_entity_count snapshot = Z.min n 64).
  { subst snapshot n. unfold build_snapshot.
    pose proof (snapshot_collect_bound (fun _ => t) (entities m) 0%nat 0 []
                  ltac:(unfold MAX_ENTITIES_PER_PACKET; lia) eq_refl)
      as [_ Hlen].
    pose proof (snapshot_collect_entries (fun _ => t) (entities m) 0%nat 0 []
                  eq_refl ltac:(simpl; lia)) as Hs.
    destruct (snapshot_collect (fun _ => t) 0 (entities m) 0 [])
      as [count slots].
    cbn [fst snd snap_entity_count] in *.
    rewrite Hlen, Hs. cbn [app length]. rewrite Nat.sub_0_r.
    rewrite filter_recent_combine, length_take. lia. }
  split; [exact Hc|].
  unfold snapshot_packet_size, sizeof_Vector4, MAX_PLAYERS, MAX_PACKET_SIZE.
  rewrite Hc. change (1024 / 32) with 32. split; lia.
Qed.

Lemma testbit_one_shifted b c :
  0 <= b -> 0 <= c -> Z.testbit (Z.shiftl 1 b) c = (c =? b).
Proof.
  intros Hb Hc. rewrite Z.shiftl_spec by exact Hc.
  destruct (Z.eqb_spec c b) as [->|Hne].
  - rewrite Z.sub_diag. reflexivity.
  - destruct (c - b) as [|p|p] eqn:E; [lia | | reflexivity].
    destruct p; reflexivity.
Qed.

(** Setting the bit of player [i] changes that bit and no other. *)
Lemma mask_bit_set ids i k :
  (k < 1024)%nat ->
  mask_bit
    (alter (fun w => uint32 (Z.lor w (Z.shiftl 1 (Z.of_nat (i mod 32)))))
       (i / 32)%nat ids) k =
    if decide (k = i) then
      if decide (i / 32 < length ids)%nat then true else mask_bit ids k
    else mask_bit ids k.
Proof.
  intros Hk. unfold mask_bit.
  pose proof (Nat.mod_upper_bound k 32 ltac:(lia)) as Hkm.
  pose proof (Nat.mod_upper_bound i 32 ltac:(lia)) as Him.
  destruct (decide (k / 32 = i / 32)%nat) as [Ew|Ew].
  - rewrite Ew, list_lookup_alter_eq.
    destruct (ids !! (i / 32)%nat) as [w|] eqn:Ei;
      cbn [fmap option_fmap option_map from_option id].
    + pose proof (lookup_lt_Some _ _ _ Ei) as Hlt.
      unfold uint32, wrap.
      rewrite Z.mod_pow2_bits_low by lia.
      rewrite Z.lor_spec, testbit_one_shifted by lia.
      destruct (decide (k = i)) as [->|Hne].
      * destruct (decide (i / 32 < length ids)%nat); [|lia].
        rewrite Z.eqb_refl. apply orb_true_r.
      * destruct (Z.eqb_spec (Z.of_nat (k mod 32)) (Z.of_nat (i mod 32)))
          as [E|_]; [|apply orb_false_r].
        exfalso. apply Hne.
        rewrite (Nat.div_mod_eq k 32), (Nat.div_mod_eq i 32). lia.
    + apply lookup_ge_None in Ei.
      destruct (decide (k = i)) as [->|_]; [|reflexivity].
      destruct (decide (i / 32 < length ids)%nat); [lia | reflexivity].
  - rewrite list_lookup_alter_ne by congruence.
    destruct (decide (k = i)) as [->|_]; [congruence | reflexivity].
Qed.

Lemma mask_bit_zero n k : mask_bit (replicate n 0) k = false.
Proof.
  unfold mask_bit.
  destruct (replicate n 0 !! (k / 32)%nat) as [w|] eqn:E; [|apply Z.testbit_0_l].
  apply lookup_replicate in E as [-> _]. apply Z.testbit_0_l.
Qed.

Lemma player_bitmask_bits ps : forall i0 ids k,
  length ids = 32%nat ->
  (i0 + length ps <= 1024)%nat ->
  (k < 1024)%nat ->
  length (player_bitmask ps i0 ids) = 32%nat /\
  mask_bit (player_bitmask ps i0 ids) k =
    if decide (i0 <= k)%nat then
      mask_bit ids k || player_connected ps (k - i0)
    else mask_bit ids k.
Proof.
  induction ps as [|p rest IH]; intros i0 ids k Hlen Hps Hk;
    cbn [player_bitmask].
  - split; [exact Hlen|]. unfold player_connected.
    rewrite lookup_nil, orb_false_r. destruct (decide _); reflexivity.
  - cbn [length] in Hps.
    set (ids' := if connected p then alter _ _ ids else ids).
    assert (Hlen' : length ids' = 32%nat).
    { subst ids'. destruct (connected p); [rewrite length_alter|]; exact Hlen. }
    assert (Hbit : mask_bit ids' k =
                   if decide (k = i0) then mask_bit ids k || connected p
                   else mask_bit ids k).
    { subst ids'. destruct (connected p).
      - rewrite mask_bit_set by exact Hk.
        destruct (decide (k = i0)) as [->|_]; [|reflexivity].
        destruct (decide (i0 / 32 < length ids)%nat) as [_|Hge];
          [rewrite orb_true_r; reflexivity|].
        exfalso. apply Hge. rewrite Hlen.
        apply Nat.Div0.div_lt_upper_bound. lia.
      - rewrite orb_false_r. destruct (decide _); reflexivity. }
    destruct (IH (S i0) ids' k Hlen' ltac:(lia) Hk) as [IHl IHb].
    split; [exact IHl|]. rewrite IHb, Hbit. unfold player_connected.
    destruct (decide (S i0 <= k)%nat) as [Hle|Hgt].
    + destruct (decide (k = i0)); [lia|].
      destruct (decide (i0 <= k)%nat); [|lia].
      replace (k - i0)%nat with (S (k - S i0)) by lia. reflexivity.
    + destruct (decide (k = i0)) as [->|Hne].
      * destruct (decide (i0 <= i0)%nat); [|lia].
        rewrite Nat.sub_diag. reflexivity.
      * destruct (decide (i0 <= k)%nat); [lia | reflexivity].
Qed.

(** X17: the bitmask of a snapshot has 32 words, and for a table of at
    most [MAX_PLAYERS] players bit [k mod 32] of word [k / 32] is set
    exactly when player [k] of the table is connected; the bits past the
    table are clear. *)
Theorem snapshot_bitmask_marks_connected :
  forall (m : NetworkManager) (snapshot_counter now : Z) (clock : nat -> Z)
         (k : nat),
    (length (players m) <= 1024)%nat ->
    (k < 1024)%nat ->
    let snapshot := build_snapshot m snapshot_counter now clock in
    length (player_ids snapshot) = 32%nat /\
    mask_bit (player_ids snapshot) k = player_connected (players m) k.
Proof.
  intros m snapshot_counter now clock k Hps Hk snapshot. subst snapshot.
  unfold build_snapshot.
  destruct (snapshot_collect clock 0 (entities m) 0 []) as [count slots].
  cbn [player_ids].
  destruct (player_bitmask_bits (players m) 0%nat (replicate 32 0) k
              (length_replicate _ _) ltac:(lia) Hk) as [Hl Hb].
  split; [exact Hl|]. rewrite Hb, mask_bit_zero, Nat.sub_0_r.
  destruct (decide (0 <= k)%nat); [reflexivity | lia].
Qed.

Lemma snapshot_bitmask_marks_connected_witness :
  let m :=
    mkNetworkManager true false 0
      [sample_peer; set_connected sample_peer false; sample_peer] 0 []
      (replicate 64 zero_snapshot) 0 0 [] 0 0 true 0 0 0 0 0
      F32.zero F32.zero in
  mask_bit (player_ids (build_snapshot m 0 100 (fun _ => 100))) 2 = true.
Proof.
  intros m.
  assert (H1 : (length (players m) <= 1024)%nat) by (simpl; lia).
  assert (H2 : (2 < 1024)%nat) by lia.
  exact (proj2 (snapshot_bitmask_marks_connected m 0 100 (fun _ => 100) 2
                  H1 H2)).
Defined.

(** The packet of a snapshot fits [packet[MAX_PACKET_SIZE]] exactly when the
    snapshot holds at most 20 entities. *)
Lemma snapshot_fits_packet snapshot :
  (MAX_PACKET_SIZE <? snapshot_packet_size snapshot) = false <->
  snap_entity_count snapshot <= 20.
Proof.
  rewrite Z.ltb_ge.
  unfold snapshot_packet_size, sizeof_Vector4, MAX_PACKET_SIZE, MAX_PLAYERS.
  change (1024 / 32) with 32. lia.
Qed.

Lemma send_to_connected_filter ps size :
  send_to_connected ps size =
    map (fun p => Sendto (address p) size) (List.filter connected ps).
Proof.
  induction ps as [|p rest IH]; simpl; [reflexivity|].
  destruct (connected p); simpl; rewrite IH; reflexivity.
Qed.

(** X18: the ring of snapshots keeps its shape.  On a server whose ring
    has its 64 slots and whose head is inside it, a call whose snapshot
    holds at most 20 entities, so that its packet fits the send buffer,
    stores the new snapshot in the slot at the head, leaves the 63 other
    slots as they were and moves the head to the next slot, from 63 back to
    0; the snapshot carries the counter as its id and the counter moves on
    by one. *)
Theorem snapshot_ring_keeps_latest :
  forall (m : NetworkManager) (snapshot_counter now : Z) (clock : nat -> Z),
    is_server m = true ->
    length (snapshots m) = 64%nat ->
    0 <= snapshot_head m < 64 ->
    snap_entity_count (build_snapshot m snapshot_counter now clock) <= 20 ->
    exists m' counter' snapshot out,
      network_send_snapshot m snapshot_counter now clock =
        SnapshotSent m' counter' snapshot out /\
      snapshot = build_snapshot m snapshot_counter now clock /\
      length (snapshots m') = 64%nat /\
      snapshot_head m' = (snapshot_head m + 1) mod 64 /\
      0 <= snapshot_head m' < 64 /\
      snapshots m' !! Z.to_nat (snapshot_head m) = Some snapshot /\
      (forall j, j <> Z.to_nat (snapshot_head m) ->
                 snapshots m' !! j = snapshots m !! j) /\
      snapshot_id snapshot = snapshot_counter /\
      counter' = uint32 (snapshot_counter + 1).
Proof.
  intros m snapshot_counter now clock Hs Hlen Hhead Hfit.
  apply snapshot_fits_packet in Hfit.
  unfold network_send_snapshot. rewrite Hs. cbn [negb]. rewrite Hfit.
  do 4 eexists. split; [reflexivity|]. split; [reflexivity|].
  cbn [snapshots snapshot_head set_snapshot_sent].
  split; [rewrite length_insert; exact Hlen|].
  split; [reflexivity|].
  split; [apply Z.mod_pos_bound; lia|].
  split; [apply list_lookup_insert_eq; lia|].
  split; [intros j Hj; apply list_lookup_insert_ne; congruence|].
  split; [|reflexivity].
  unfold build_snapshot.
  destruct (snapshot_collect clock 0 (entities m) 0 []). reflexivity.
Qed.

Lemma snapshot_ring_keeps_latest_witness :
  let m :=
    set_entities (network_manager_create true 0)
      (take 20 seventy_fresh_entities) in
  snap_entity_count (build_snapshot m 5 100 (fun _ => 100)) = 20 /\
  exists m' counter' snapshot out,
    network_send_snapshot m 5 100 (fun _ => 100) =
      SnapshotSent m' counter' snapshot out /\
    snapshots m' !! 0%nat = Some snapshot /\ snapshot_head m' = 1.
Proof.
  intros m.
  assert (H : 0 <= snapshot_head m < 64) by (simpl; lia).
  assert (Hfit : snap_entity_count (build_snapshot m 5 100 (fun _ => 100))
                 <= 20) by (vm_compute; discriminate).
  destruct (snapshot_ring_keeps_latest m 5 100 (fun _ => 100)
              eq_refl eq_refl H Hfit)
    as (m' & c' & snap & out & E & _ & _ & Hh & _ & Hl & _).
  split; [reflexivity|].
  exists m', c', snap, out.
  split; [exact E|]. split; [exact Hl | exact Hh].
Defined.

(** X19: a client sends nothing.  A server whose snapshot holds at most 20
    entities sends it to each connected player and to no other, in table
    order, and counts each datagram: [packets_sent] grows by the number of
    connected players and [bytes_sent] by as many times the packet size;
    one sequence number is used for all of them, also when no player is
    connected.  A server whose snapshot holds more than 20 entities writes
    past the end of the send buffer, and nothing is sent that the code
    determines. *)
Theorem snapshot_sent_to_connected :
  forall (m : NetworkManager) (snapshot_counter now : Z) (clock : nat -> Z),
    let snapshot := build_snapshot m snapshot_counter now clock in
    (is_server m = false ->
     network_send_snapshot m snapshot_counter now clock = NotServer) /\
    (is_server m = true -> 20 < snap_entity_count snapshot ->
     network_send_snapshot m snapshot_counter now clock =
       PacketOverrun snapshot) /\
    (is_server m = true -> snap_entity_count snapshot <= 20 ->
     exists m' counter' out,
       network_send_snapshot m snapshot_counter now clock =
         SnapshotSent m' counter' snapshot out /\
       let size := snapshot_packet_size snapshot in
       let n := Z.of_nat (length (List.filter connected (players m))) in
       size = 144 + 62 * snap_entity_count snapshot /\
       size <= MAX_PACKET_SIZE /\
       out = map (fun p => Sendto (address p) size)
               (List.filter connected (players m)) /\
       packets_sent m' = uint32 (packets_sent m + n) /\
       bytes_sent m' = uint32 (bytes_sent m + n * size) /\
       next_send_sequence m' = uint16 (next_send_sequence m + 1)).
Proof.
  intros m snapshot_counter now clock snapshot.
  unfold network_send_snapshot. fold snapshot.
  split; [intros Hs; rewrite Hs; reflexivity|].
  split; intros Hs Hc; rewrite Hs; cbn [negb].
  - destruct (MAX_PACKET_SIZE <? snapshot_packet_size snapshot) eqn:E;
      [reflexivity|].
    apply snapshot_fits_packet in E. lia.
  - pose proof (proj2 (snapshot_fits_packet snapshot) Hc) as E. rewrite E.
    do 3 eexists. split; [reflexivity|].
    cbn [packets_sent bytes_sent next_send_sequence set_snapshot_sent].
    rewrite send_to_connected_filter, length_map.
    split.
    { unfold snapshot_packet_size, sizeof_Vector4, MAX_PLAYERS.
      change (1024 / 32) with 32. lia. }
    split; [apply Z.ltb_ge; exact E|].
    repeat split.
Qed.

Lemma snapshot_sent_to_connected_witness :
  let m :=
    mkNetworkManager true false 0
      [sample_peer; set_connected sample_peer false; sample_peer] 0
      (take 20 seventy_fresh_entities)
      (replicate 64 zero_snapshot) 0 0 [] 0 0 true 0 0 0 0 0
      F32.zero F32.zero in
  exists m' counter' out,
    network_send_snapshot m 0 100 (fun _ => 100) =
      SnapshotSent m' counter' (build_snapshot m 0 100 (fun _ => 100)) out /\
    out = [Sendto 0 1384; Sendto 0 1384] /\ packets_sent m' = 2 /\
    bytes_sent m' = 2768.
Proof.
  intros m.
  assert (Hfit : snap_entity_count (build_snapshot m 0 100 (fun _ => 100))
                 <= 20) by (vm_compute; discriminate).
  destruct (proj2 (proj2 (snapshot_sent_to_connected m 0 100 (fun _ => 100)))
              eq_refl Hfit)
    as (m' & c' & out & E & _ & _ & Hout & Hp & Hb & _).
  exists m', c', out. split; [exact E|].
  split; [rewrite Hout; reflexivity|].
  split; [rewrite Hp; reflexivity | rewrite Hb; reflexivity].
Defined.

(** With more recent entities than fit the buffer the call is undefined
    after the snapshot has been built. *)
Example snapshot_of_seventy_overruns :
  let m := set_entities (network_manager_create true 0) seventy_fresh_entities in
  network_send_snapshot m 0 100 (fun _ => 100) =
    PacketOverrun (build_snapshot m 0 100 (fun _ => 100)).
Proof. vm_compute. reflexivity. Qed.

(** ** Reconciliation, further *)

Lemma reconciled_owner_id es local entity :
  owner_id (reconciled es local entity) = owner_id entity.
Proof.
  unfold reconciled. destruct (correction_for es local entity); reflexivity.
Qed.

Lemma state_mismatch_pose a b server_entity :
  position a = position b -> rotation a = rotation b ->
  state_mismatch a server_entity = state_mismatch b server_entity.
Proof. intros Hp Hr. unfold state_mismatch. rewrite Hp, Hr. reflexivity. Qed.

(** After the loop no entity calls for a correction any more. *)
Lemma correction_for_reconciled es local e :
  correction_for (map (reconciled es local) es) local
    (reconciled es local e) = None.
Proof.
  unfold correction_for at 1.
  rewrite reconciled_owner_id, reconciled_entity_id.
  destruct (Z.eqb_spec (owner_id e) local) as [Ho|_]; [|reflexivity].
  cbn [negb].
  rewrite (find_entity_index_ids _ es _ (reconciled_table_ids es local)).
  destruct (find_entity_index es (entity_id e)) as [j|] eqn:Ej;
    [|reflexivity].
  destruct (find_entity_index_Some _ _ _ Ej) as (se & Hse & _).
  cbn [mbind option_bind].
  rewrite reconciled_table_lookup, Hse. cbn [fmap option_fmap option_map].
  rewrite (reconciled_first _ _ _ _ _ Ej Hse). cbn [mbind option_bind].
  unfold reconciled.
  rewrite (correction_for_owned _ _ _ _ _ Ho Ej Hse).
  destruct (state_mismatch e se) eqn:Em.
  - rewrite (state_mismatch_pose (snap_to e se) se se eq_refl eq_refl).
    rewrite state_mismatch_self. reflexivity.
  - rewrite Em. reflexivity.
Qed.

(** X20: reconciliation is idempotent.  On a client a second call right
    after the first changes nothing and prints nothing, whatever the table
    held before the first. *)
Theorem reconcile_twice_idle :
  forall (m : NetworkManager),
    is_server m = false ->
    network_reconcile_state (fst (network_reconcile_state m)) =
      (fst (network_reconcile_state m), []).
Proof.
  intros m Hs. rewrite (network_reconcile_state_spec m Hs). cbn [fst].
  apply reconcile_agreement_noop; [exact Hs|].
  cbn [entities local_player_id set_entities].
  intros e' He'. apply in_map_iff in He' as (e & <- & _).
  apply correction_for_reconciled.
Qed.

Lemma reconcile_twice_idle_witness :
  snd (network_reconcile_state (fst (network_reconcile_state sample_client)))
    = [].
Proof.
  exact (f_equal snd (reconcile_twice_idle sample_client eq_refl)).
Defined.

(** X21: when no two slots of the table hold the same entity id, a call on
    a client corrects nothing and prints nothing: the state every entity
    is compared with is its own. *)
Theorem unique_ids_never_reconciled :
  forall (m : NetworkManager),
    is_server m = false ->
    NoDup (map entity_id (entities m)) ->
    network_reconcile_state m = (m, []) /\
    forall i e, entities m !! i = Some e ->
      find_server_entity m (entity_id e) = Some i.
Proof.
  intros m Hs Hnd. split.
  - apply reconcile_agreement_noop; [exact Hs|].
    intros e He. apply list_elem_of_In in He.
    apply list_elem_of_lookup in He as [i Hi].
    unfold correction_for.
    destruct (negb (owner_id e =? local_player_id m)); [reflexivity|].
    rewrite (find_entity_index_self _ _ _ Hnd Hi). cbn [mbind option_bind].
    rewrite Hi. cbn [mbind option_bind].
    rewrite state_mismatch_self. reflexivity.
  - intros i e Hi. apply find_entity_index_self; assumption.
Qed.

Lemma unique_ids_never_reconciled_witness :
  let m := set_entities (network_manager_create false 0)
             [sample_entity 0;
              mkNetworkEntity 8 0 0 0 (position (sample_entity 1))
                (rotation (sample_entity 1)) (velocity (sample_entity 1))
                100 2] in
  network_reconcile_state m = (m, []).
Proof.
  intros m.
  assert (Hnd : NoDup (map entity_id (entities m))).
  { simpl. apply NoDup_cons. split; [|apply NoDup_singleton].
    intros H. apply list_elem_of_singleton in H. discriminate. }
  exact (proj1 (unique_ids_never_reconciled m eq_refl Hnd)).
Defined.

Lemma reconciled_fields es local e :
  entity_id (reconciled es local e) = entity_id e /\
  owner_id (reconciled es local e) = owner_id e /\
  entity_type (reconciled es local e) = entity_type e /\
  flags (reconciled es local e) = flags e /\
  velocity (reconciled es local e) = velocity e /\
  last_update (reconciled es local e) = last_update e /\
  interpolation_time (reconciled es local e) = interpolation_time e /\
  (owner_id e <> local -> reconciled es local e = e).
Proof.
  unfold reconciled, correction_for.
  destruct (Z.eqb_spec (owner_id e) local) as [Ho|Ho]; cbn [negb].
  - destruct (_ ≫= _); repeat split; intros; contradiction.
  - repeat split.
Qed.

(** X22: a call on a client touches nothing but the position and the
    rotation of entities of the local peer.  The table keeps its length;
    every entity keeps its id, owner, type, flags, velocity, time of last
    update and interpolation time; an entity of another owner is left as it
    is; and every field of the manager but the table is unchanged. *)
Theorem reconcile_frame :
  forall (m : NetworkManager),
    is_server m = false ->
    let m' := fst (network_reconcile_state m) in
    m' = set_entities m (entities m') /\
    length (entities m') = length (entities m) /\
    forall i e, entities m !! i = Some e ->
      exists e',
        entities m' !! i = Some e' /\
        entity_id e' = entity_id e /\ owner_id e' = owner_id e /\
        entity_type e' = entity_type e /\ flags e' = flags e /\
        velocity e' = velocity e /\ last_update e' = last_update e /\
        interpolation_time e' = interpolation_time e /\
        (owner_id e <> local_player_id m -> e' = e).
Proof.
  intros m Hs m'. subst m'.
  rewrite (network_reconcile_state_spec m Hs). cbn [fst].
  cbn [entities set_entities].
  split; [reflexivity|]. split; [apply length_map|].
  intros i e Hi.
  exists (reconciled (entities m) (local_player_id m) e).
  split; [rewrite reconciled_table_lookup, Hi; reflexivity|].
  apply reconciled_fields.
Qed.

Lemma reconcile_frame_witness :
  length (entities (fst (network_reconcile_state sample_client))) = 3%nat.
Proof.
  exact (proj1 (proj2 (reconcile_frame sample_client eq_refl))).
Defined.

Lemma vector_distance_same_xyz a b :
  same_xyz a b -> zero_or_nan (vector_distance a b) = true.
Proof.
  intros (Hx & Hy & Hz). unfold vector_distance. rewrite Hx, Hy, Hz.
  apply sqrtf_zero_or_nan.
  repeat apply add_zero_or_nan; apply mul_zero_or_nan;
    apply sub_self_zero_or_nan.
Qed.

(** X23: the comparison reads [x], [y] and [z] only.  An entity of the
    local peer whose position and rotation agree in these three with the
    entity found for its id is not corrected, whatever the fourth
    components are: a rotation that differs in [w] alone stays as it
    is. *)
Theorem difference_in_w_not_corrected :
  forall (m : NetworkManager) (i j : nat)
         (entity server_entity : NetworkEntity),
    is_server m = false ->
    entities m !! i = Some entity ->
    find_server_entity m (entity_id entity) = Some j ->
    entities m !! j = Some server_entity ->
    same_xyz (position entity) (position server_entity) ->
    same_xyz (rotation entity) (rotation server_entity) ->
    state_mismatch entity server_entity = false /\
    entities (fst (network_reconcile_state m)) !! i = Some entity.
Proof.
  intros m i j entity server_entity Hs Hi Hj Hse Hp Hr.
  assert (Hm : state_mismatch entity server_entity = false).
  { unfold state_mismatch.
    pose proof (vector_distance_same_xyz _ _ Hp) as Zp.
    pose proof (vector_distance_same_xyz _ _ Hr) as Zr.
    destruct (vector_distance (position entity) (position server_entity));
      destruct (vector_distance (rotation entity) (rotation server_entity));
      try discriminate; reflexivity. }
  split; [exact Hm|].
  rewrite (network_reconcile_state_spec m Hs). cbn [fst entities set_entities].
  rewrite reconciled_table_lookup, Hi. cbn [fmap option_fmap option_map].
  f_equal. unfold reconciled, correction_for.
  destruct (negb (owner_id entity =? local_player_id m)); [reflexivity|].
  unfold find_server_entity in Hj. rewrite Hj. cbn [mbind option_bind].
  rewrite Hse. cbn [mbind option_bind]. rewrite Hm. reflexivity.
Qed.

Lemma difference_in_w_not_corrected_witness :
  let turned :=
    mkNetworkEntity 7 0 0 0 (position (sample_entity 0))
      (mkVector4 F32.zero F32.zero F32.zero F32.zero)
      (velocity (sample_entity 0)) 100 2 in
  let m := set_entities (network_manager_create false 0)
             [sample_entity 0; turned] in
  entities (fst (network_reconcile_state m)) !! 1%nat = Some turned.
Proof.
  intros turned m.
  assert (Hp : same_xyz (position turned) (position (sample_entity 0)))
    by (repeat split).
  assert (Hr : same_xyz (rotation turned) (rotation (sample_entity 0)))
    by (repeat split).
  exact (proj2 (difference_in_w_not_corrected m 1 0 turned (sample_entity 0)
                  eq_refl eq_refl eq_refl eq_refl Hp Hr)).
Defined.

(** X24: [find_server_entity] returns the first slot with the id it is
    asked for: the slot it returns holds that id and no slot before it
    does; it returns nothing exactly when no slot holds the id. *)
Theorem find_server_entity_first :
  forall (m : NetworkManager) (id : Z),
    match find_server_entity m id with
    | Some j =>
        (exists e, entities m !! j = Some e /\ entity_id e = id) /\
        (forall k e, (k < j)%nat -> entities m !! k = Some e ->
                     entity_id e <> id)
    | None => forall e, In e (entities m) -> entity_id e <> id
    end.
Proof.
  intros m id. unfold find_server_entity.
  induction (entities m) as [|e0 rest IH]; cbn [find_entity_index].
  - intros e [].
  - destruct (Z.eqb_spec (entity_id e0) id) as [E|Hne].
    + split; [exists e0; split; [reflexivity | exact E]|].
      intros k e Hk. lia.
    + destruct (find_entity_index rest id) as [j|];
        cbn [fmap option_fmap option_map].
      * destruct IH as [Hj Hbefore]. split; [exact Hj|].
        intros [|k] e Hk Hl; cbn [lookup list_lookup] in Hl.
        -- injection Hl as <-. exact Hne.
        -- apply (Hbefore k e); [lia | exact Hl].
      * intros e [<-|Hin]; [exact Hne | exact (IH e Hin)].
Qed.

(** ** Voice, further *)

(** X25: on a connected manager [network_send_voice] is defined for the
    sizes up to 1200 and for no other: every [data_size] from 1201 to
    65535, the largest a [uint16_t] holds, runs the copy past
    [voice.audio_data]. *)
Theorem voice_defined_up_to_1200 :
  forall (m : NetworkManager) (data_size channels sample_rate : Z),
    is_connected m = true ->
    0 <= data_size <= 65535 ->
    (network_send_voice m data_size channels sample_rate = None <->
     1200 < data_size).
Proof.
  intros m data_size channels sample_rate Hc Hd.
  unfold network_send_voice, voice_serialized_size, in_object.
  rewrite Hc, sizeof_VoicePacket_eq. cbn [negb].
  unfold sizeof_audio_data, MAX_PACKET_SIZE.
  destruct (Z.leb_spec 0 data_size) as [_|?]; [|lia].
  destruct (Z.leb_spec (0 + data_size) 1200) as [Hle|Hgt]; cbn [andb negb].
  - destruct (Z.leb_spec 0 (1220 - 1200 + data_size)) as [_|?]; [|lia].
    destruct (Z.leb_spec (0 + (1220 - 1200 + data_size)) 1220) as [_|?];
      [|lia].
    destruct (Z.leb_spec (4 + (1220 - 1200 + data_size)) 1400) as [_|?];
      [|lia].
    cbn [andb negb Z.leb]. split; [discriminate | lia].
  - split; [lia | reflexivity].
Qed.

Lemma voice_defined_up_to_1200_witness :
  network_send_voice sample_connected_client 4000 1 48000 = None.
Proof.
  assert (H : 0 <= 4000 <= 65535) by lia.
  apply (voice_defined_up_to_1200 sample_connected_client 4000 1 48000
           eq_refl H).
  lia.
Defined.

Lemma send_to_others_filter ps local size :
  send_to_others ps local size =
    map (fun p => Sendto (address p) size)
      (List.filter (fun p => connected p && negb (player_id p =? local)) ps).
Proof.
  induction ps as [|p rest IH]; simpl; [reflexivity|].
  destruct (connected p && negb (player_id p =? local)); simpl; rewrite IH;
    reflexivity.
Qed.

(** X26: a voice packet of a connected server goes to the connected
    players other than the local one, in table order; that of a connected
    client goes to the server.  Either way one packet of
    [24 + data_size] bytes is counted and one sequence number used, also
    when the server had nobody to send to. *)
Theorem voice_recipients :
  forall (m : NetworkManager) (data_size channels sample_rate : Z),
    is_connected m = true ->
    0 <= data_size <= 1200 ->
    exists m' out,
      network_send_voice m data_size channels sample_rate = Some (m', out) /\
      out =
        (if is_server m
         then map (fun p => Sendto (address p) (24 + data_size))
                (List.filter
                   (fun p => connected p
                             && negb (player_id p =? local_player_id m))
                   (players m))
         else [Sendto (server_address m) (24 + data_size)]) /\
      packets_sent m' = uint32 (packets_sent m + 1) /\
      bytes_sent m' = uint32 (bytes_sent m + (24 + data_size)) /\
      next_send_sequence m' = uint16 (next_send_sequence m + 1).
Proof.
  intros m data_size channels sample_rate Hc Hd.
  unfold network_send_voice, voice_serialized_size, in_object.
  rewrite Hc, sizeof_VoicePacket_eq. cbn [negb].
  unfold sizeof_audio_data, MAX_PACKET_SIZE.
  destruct (Z.leb_spec 0 data_size) as [_|?]; [|lia].
  destruct (Z.leb_spec (0 + data_size) 1200) as [_|?]; [|lia].
  destruct (Z.leb_spec 0 (1220 - 1200 + data_size)) as [_|?]; [|lia].
  destruct (Z.leb_spec (0 + (1220 - 1200 + data_size)) 1220) as [_|?]; [|lia].
  destruct (Z.leb_spec (4 + (1220 - 1200 + data_size)) 1400) as [_|?]; [|lia].
  cbn [andb negb Z.leb].
  replace (4 + (1220 - 1200 + data_size)) with (24 + data_size) by lia.
  do 2 eexists. split; [reflexivity|].
  split; [|repeat split].
  destruct (is_server m); [apply send_to_others_filter | reflexivity].
Qed.

Lemma voice_recipients_witness :
  exists m' out,
    network_send_voice sample_connected_client 160 1 48000 = Some (m', out) /\
    out = [Sendto 9 184].
Proof.
  assert (H : 0 <= 160 <= 1200) by lia.
  destruct (voice_recipients sample_connected_client 160 1 48000 eq_refl H)
    as (m' & out & E & Hout & _).
  exists m', out. split; [exact E | exact Hout].
Defined.

(** ** Interpolation, further *)

Lemma leb_one_of_not_ltb m e :
  SFltb F32.one (S754_finite false m e) = false ->
  SFleb (S754_finite false m e) F32.one = true.
Proof.
  unfold SFltb, SFleb.
  change F32.one with (S754_finite false 8388608 (-23)).
  cbn [SFcompare].
  rewrite (Z.compare_antisym (-23) e).
  destruct (-23 ?= e); cbn [CompOpp]; intros H; try discriminate;
    try reflexivity.
  change (Pos.compare_cont Eq m 8388608)
    with (Pos.compare_cont (CompOpp Eq) m 8388608).
  rewrite <- Pos.compare_cont_antisym.
  destruct (Pos.compare_cont Eq 8388608 m); try discriminate; reflexivity.
Qed.

(** [fminf(fmaxf(alpha, 0.0f), 1.0f)] lies between 0 and 1 for every
    [alpha], a NaN included. *)
Lemma clamp_between_zero_and_one a :
  SFleb F32.zero (F32.fminf (F32.fmaxf a F32.zero) F32.one) = true /\
  SFleb (F32.fminf (F32.fmaxf a F32.zero) F32.one) F32.one = true.
Proof.
  destruct a as [[|]|[|]| |[|] m e]; try (split; reflexivity).
  change (F32.fmaxf (S754_finite false m e) F32.zero)
    with (S754_finite false m e).
  unfold F32.fminf. cbn [F32.is_nan].
  destruct (SFltb F32.one (S754_finite false m e)) eqn:El.
  - split; reflexivity.
  - split; [reflexivity | apply leb_one_of_not_ltb, El].
Qed.

(** X27: the factor the interpolation loop computes is a number from 0 to
    1 for every clock reading and every entity: never a NaN, and 0 or 1
    when the quotient is outside. *)
Theorem interpolation_alpha_clamped :
  forall (now : Z) (entity : NetworkEntity),
    SFleb F32.zero (interpolation_alpha now entity) = true /\
    SFleb (interpolation_alpha now entity) F32.one = true.
Proof.
  intros now entity. unfold interpolation_alpha.
  apply clamp_between_zero_and_one.
Qed.
